(** * web3_privacy_matrix: a shallow embedding of [app.py]

    The program holds a catalog of three privacy stacks, scores them with a
    weighted sum, and prints them as a table, as CSV or as JSON.  This file
    embeds the functions of [app.py] together with the Python builtins they
    call ([float] arithmetic, [round], [str], [sorted], [json.dumps]) and
    proves the properties of the specification against that embedding. *)

From Stdlib Require Import ZArith QArith List String Ascii Lia Bool.
From Stdlib Require Import Floats.SpecFloat.
From Stdlib Require Import Sorting.Permutation Sorting.Sorted.
From Stdlib Require Import Structures.OrderedTypeEx.
From stdpp Require Import gmap strings list fin_maps pretty sorting.

Local Open Scope string_scope.
Local Open Scope list_scope.
Local Open Scope Z_scope.

(** ** Python strings

    A Python [str] is modelled by a Rocq [string] whose characters are the
    code points 0..255; [len] is [String.length]. *)
Module PyStr.

(** [sep.join(parts)] *)
Definition join (sep : string) (parts : list string) : string :=
  String.concat sep parts.

(** [c * n] for a one-character string [c] *)
Fixpoint repeat_char (c : ascii) (n : nat) : string :=
  match n with
  | O => EmptyString
  | S n' => String c (repeat_char c n')
  end.

(** [s.ljust(width)]: pads with spaces on the right, never truncates. *)
Definition ljust (s : string) (width : nat) : string :=
  s +:+ repeat_char " "%char (width - String.length s).

(** [s.upper()] on ASCII text, which is all [app.py] applies it to. *)
Definition upper_char (c : ascii) : ascii :=
  let n := nat_of_ascii c in
  if (97 <=? n)%nat && (n <=? 122)%nat then ascii_of_nat (n - 32) else c.

Fixpoint upper (s : string) : string :=
  match s with
  | EmptyString => EmptyString
  | String c s' => String (upper_char c) (upper s')
  end.

(** [c in s] for a one-character string [c] *)
Fixpoint contains (c : ascii) (s : string) : bool :=
  match s with
  | EmptyString => false
  | String d s' => if Ascii.eqb c d then true else contains c s'
  end.

(** [s.replace(c, by)] for a one-character pattern [c] *)
Fixpoint replace (c : ascii) (by_ : string) (s : string) : string :=
  match s with
  | EmptyString => EmptyString
  | String d s' =>
      if Ascii.eqb c d then by_ +:+ replace c by_ s'
      else String d (replace c by_ s')
  end.

(** [s.split(sep)] for a one-character separator *)
Fixpoint split (sep : ascii) (s : string) : list string :=
  match s with
  | EmptyString => [EmptyString]
  | String d s' =>
      if Ascii.eqb sep d then EmptyString :: split sep s'
      else match split sep s' with
           | [] => [String d EmptyString]
           | w :: ws => String d w :: ws
           end
  end.

(** [str(n)] / [repr(n)] of an [int] *)
Definition of_int (n : Z) : string := pretty n.

End PyStr.

(** ** Python floats: IEEE 754 binary64, round to nearest even

    A [float] is a [spec_float] with 53 bits of precision; the arithmetic is
    that of the Standard Library's executable specification. *)
Module PyFloat.

Definition prec : Z := 53.
Definition emax : Z := 1024.
Definition float : Type := spec_float.

(** Conversion of an [int] operand, as in [0.45 * stack.privacy_level]:
    the nearest float.  CPython raises [OverflowError] for an [int] whose
    nearest float would be an infinity (from [2^1024 - 2^970] on); this
    conversion yields the infinity there, so the embedding speaks for the
    code on [int]s below that bound only, the levels 1 to 10 among them. *)
Definition of_int (n : Z) : float := binary_normalize prec emax n 0 false.

(** The binary64 nearest to the fraction [n/d]: how a decimal literal such
    as [0.45] is read, and how [strtod] reads a decimal string. *)
Definition of_ratio (s : bool) (n d : positive) : float :=
  let '(m, e, l) := SFdiv_core_binary prec emax (Zpos n) 0 (Zpos d) 0 in
  binary_round_aux prec emax s m e l.

Definition mul : float -> float -> float := SFmul prec emax.
Definition add : float -> float -> float := SFadd prec emax.
Definition sub : float -> float -> float := SFsub prec emax.

(** Nearest integer to [n/d], ties to even, for [0 <= n]. *)
Definition round_half_even (n : Z) (d : positive) : Z :=
  let q := n / Zpos d in
  let r := n mod Zpos d in
  match 2 * r ?= Zpos d with
  | Lt => q
  | Gt => q + 1
  | Eq => if Z.even q then q else q + 1
  end.

(** The exact value [m * 2^e] times [10^ndigits], as a fraction. *)
Definition scaled_value (m : positive) (e : Z) (ndigits : nat) : Z * positive :=
  let p10 := 10 ^ Z.of_nat ndigits in
  if 0 <=? e then (Zpos m * 2 ^ e * p10, 1%positive)
  else (Zpos m * p10, Z.to_pos (2 ^ (- e))).

(** [round(x, ndigits)] for [0 <= ndigits]: CPython rounds the exact binary
    value to [ndigits] decimals (ties to even) and reads the decimal string
    back; non-finite values and zeros round to themselves, and so does
    every float when [ndigits] exceeds 323. *)
Definition round (x : float) (ndigits : nat) : float :=
  match x with
  | S754_finite s m e =>
      if (323 <? ndigits)%nat then x
      else
        let '(n, d) := scaled_value m e ndigits in
        match round_half_even n d with
        | Zpos k => of_ratio s k (Z.to_pos (10 ^ Z.of_nat ndigits))
        | _ => S754_zero s
        end
  | _ => x
  end.

(** *** [repr(x)]: the shortest decimal string that reads back as [x] *)

(** Number of decimal digits of a positive integer. *)
Fixpoint digits10_go (fuel : nat) (n : Z) : nat :=
  match fuel with
  | O => O
  | S fuel' => if n <? 10 then 1%nat else S (digits10_go fuel' (n / 10))
  end.

Definition digits10 (n : Z) : nat := digits10_go (S (Z.to_nat (Z.log2 n))) n.

(** Drops the trailing zeros of a positive integer. *)
Fixpoint strip_zeros_go (fuel : nat) (n : Z) : Z :=
  match fuel with
  | O => n
  | S fuel' => if (n mod 10 =? 0) && (0 <? n) then strip_zeros_go fuel' (n / 10) else n
  end.

Definition strip_zeros (n : Z) : Z := strip_zeros_go (digits10 n) n.

(** A positive finite float [m * 2^e] and the decimals around it are
    compared as fractions over the common denominator [den m e j]:
    one unit is a quarter of the spacing [2^e], and [unit10 e j] is what
    [10^j] is worth in that unit. *)
Definition unit10 (e j : Z) : Z :=
  (if 0 <=? j then 10 ^ j else 1) * (if e <=? 2 then 2 ^ (2 - e) else 1).

Definition den (e j : Z) : Z :=
  (if 0 <=? j then 1 else 10 ^ (- j)) * (if e <=? 2 then 1 else 2 ^ (e - 2)).

(** Half the gap to the float below, in quarters of [2^e]: the gap halves
    just above a power of two. *)
Definition gap_below (m : positive) (e : Z) : Z :=
  if (Zpos m =? 2 ^ (prec - 1)) && (3 - emax - prec <? e) then 1 else 2.

(** Does the decimal [c * 10^j] read back as [m * 2^e]?  The rounding
    interval is closed exactly when the mantissa is even. *)
Definition reads_back (m : positive) (e : Z) (c j : Z) : bool :=
  let x := c * unit10 e j in
  let lo := (4 * Zpos m - gap_below m e) * den e j in
  let hi := (4 * Zpos m + 2) * den e j in
  if Z.even (Zpos m) then (lo <=? x) && (x <=? hi) else (lo <? x) && (x <? hi).

(** The least [d] with [m * 2^e < 10^d]. *)
Definition decpt_of (m : positive) (e : Z) : Z :=
  if 0 <=? e then Z.of_nat (digits10 (Zpos m * 2 ^ e))
  else if 2 ^ (- e) <=? Zpos m then Z.of_nat (digits10 (Zpos m / 2 ^ (- e)))
  else 1 - Z.of_nat (digits10 ((2 ^ (- e) - 1) / Zpos m)).

(** The candidate with [n] significant digits: the decimal just below or
    just above the float, whichever reads back; when both do, the nearer
    one, and the one with the even last digit when they are equally near. *)
Definition candidate (m : positive) (e : Z) (dp : Z) (n : nat) : option (Z * Z) :=
  let j := dp - Z.of_nat n in
  let v := 4 * Zpos m * den e j in
  let u := unit10 e j in
  let c_lo := v / u in
  let c_hi := if v mod u =? 0 then c_lo else c_lo + 1 in
  let ok_lo := (0 <? c_lo) && reads_back m e c_lo j in
  let ok_hi := reads_back m e c_hi j in
  let below := v - c_lo * u in
  let above := c_hi * u - v in
  let pick_lo := (below <? above) || ((below =? above) && Z.even c_lo) in
  if ok_lo && (pick_lo || negb ok_hi) then Some (c_lo, j)
  else if ok_hi then Some (c_hi, j)
  else None.

Fixpoint shortest_go (m : positive) (e : Z) (dp : Z) (fuel n : nat) : Z * Z :=
  match fuel with
  | O => (Zpos m * unit10 e 0, 0)
  | S fuel' =>
      match candidate m e dp n with
      | Some r => r
      | None => shortest_go m e dp fuel' (S n)
      end
  end.

(** The shortest digits [c] and exponent [j] with [c * 10^j] reading back
    as [m * 2^e]; seventeen digits always suffice, so the search never
    runs out of fuel. *)
Definition shortest (m : positive) (e : Z) : Z * Z :=
  shortest_go m e (decpt_of m e) 17 1.

Definition zeros (n : Z) : string := PyStr.repeat_char "0"%char (Z.to_nat n).

Definition take (n : nat) (s : string) : string := String.substring 0 n s.
Definition drop (n : nat) (s : string) : string :=
  String.substring n (String.length s - n) s.

(** The exponent of the scientific form: a sign and at least two digits. *)
Definition exponent (x : Z) : string :=
  let a := PyStr.of_int (Z.abs x) in
  (if x <? 0 then "e-" else "e+") +:+ (if Z.abs x <? 10 then "0" +:+ a else a).

(** Layout of [repr]: scientific when the decimal point falls left of
    [-4] or right of [16], plain otherwise, always with a fraction part
    in the plain form. *)
Definition layout (c j : Z) : string :=
  let c' := strip_zeros c in
  let ds := PyStr.of_int c' in
  let n := Z.of_nat (String.length ds) in
  let dp := Z.of_nat (digits10 c) + j in
  if (dp <=? -4) || (16 <? dp) then
    take 1 ds +:+ (if 1 <? n then "." +:+ drop 1 ds else "") +:+ exponent (dp - 1)
  else if dp <=? 0 then "0." +:+ zeros (- dp) +:+ ds
  else if n <=? dp then ds +:+ zeros (dp - n) +:+ ".0"
  else take (Z.to_nat dp) ds +:+ "." +:+ drop (Z.to_nat dp) ds.

Definition repr (x : float) : string :=
  match x with
  | S754_nan => "nan"
  | S754_infinity s => if s then "-inf" else "inf"
  | S754_zero s => if s then "-0.0" else "0.0"
  | S754_finite s m e =>
      let '(c, j) := shortest m e in
      (if s then "-" else "") +:+ layout c j
  end.

End PyFloat.

(** ** Exceptions

    A call either returns or raises; [KeyError] and [TypeError] are the two
    exceptions the functions of [app.py] can raise. *)
Inductive exn : Type := KeyError | TypeError.

Inductive result (A : Type) : Type :=
  | Ok (a : A)
  | Raise (e : exn).
Arguments Ok {A} a.
Arguments Raise {A} e.

#[global] Instance result_ret : MRet result := fun A a => Ok a.
#[global] Instance result_bind : MBind result := fun A B k r =>
  match r with
  | Ok a => k a
  | Raise e => Raise e
  end.

(** ** Row values: a cell is a [str], an [int] or a [float] *)
Inductive value : Type :=
  | VStr (s : string)
  | VInt (n : Z)
  | VFloat (x : PyFloat.float).

(** [str(v)] *)
Definition py_str (v : value) : string :=
  match v with
  | VStr s => s
  | VInt n => PyStr.of_int n
  | VFloat x => PyFloat.repr x
  end.

(** *** Ordering of values

    Python compares an [int] with a [float] by their exact values and a
    [str] with a [str] by code points; [str < number] raises [TypeError].
    A number is read as [m * 2^e], an infinity or a NaN. *)
Inductive num : Type :=
  | NaN
  | NInf
  | Dy (m e : Z)
  | PInf.

Definition num_of_float (x : PyFloat.float) : num :=
  match x with
  | S754_nan => NaN
  | S754_infinity s => if s then NInf else PInf
  | S754_zero _ => Dy 0 0
  | S754_finite s m e => Dy (cond_Zopp s (Zpos m)) e
  end.

Definition dy_ltb (m1 e1 m2 e2 : Z) : bool :=
  let e := Z.min e1 e2 in
  m1 * 2 ^ (e1 - e) <? m2 * 2 ^ (e2 - e).

Definition num_ltb (a b : num) : bool :=
  match a, b with
  | NaN, _ | _, NaN => false
  | _, NInf => false
  | NInf, _ => true
  | PInf, _ => false
  | _, PInf => true
  | Dy m1 e1, Dy m2 e2 => dy_ltb m1 e1 m2 e2
  end.

Inductive key_kind : Type :=
  | KStr (s : string)
  | KNum (n : num).

Definition kind_of (v : value) : key_kind :=
  match v with
  | VStr s => KStr s
  | VInt n => KNum (Dy n 0)
  | VFloat x => KNum (num_of_float x)
  end.

(** [a < b] *)
Definition value_lt (a b : value) : result bool :=
  match kind_of a, kind_of b with
  | KStr s, KStr t => Ok (String.ltb s t)
  | KNum x, KNum y => Ok (num_ltb x y)
  | _, _ => Raise TypeError
  end.

(** ** [sorted(xs, key=..., reverse=...)]

    [sorted] is stable and uses only [<].  It is modelled by insertion into
    the sorted tail, placing an element before the first one that is not
    smaller; on keys that [<] orders totally this is the one stable sort.
    Where [<] orders nothing (a NaN among the keys) [list.sort] asks other
    comparisons and may return another arrangement of the same rows: there
    the embedding speaks for the code up to reordering only.
    With [reverse=True] CPython reverses the list, sorts it, and reverses
    the result, which keeps equal keys in their original order. *)
Section Sorted.
Context {A : Type} (key : A -> value).

Fixpoint insert_sorted (x : A) (l : list A) : result (list A) :=
  match l with
  | [] => Ok [x]
  | y :: l' =>
      b ← value_lt (key y) (key x);
      if (b : bool) then (r ← insert_sorted x l'; Ok (y :: r))
      else Ok (x :: y :: l')
  end.

Fixpoint sort_ascending (l : list A) : result (list A) :=
  match l with
  | [] => Ok []
  | x :: l' => r ← sort_ascending l'; insert_sorted x r
  end.

Definition py_sorted (l : list A) (reverse : bool) : result (list A) :=
  if reverse then (r ← sort_ascending (rev l); Ok (rev r))
  else sort_ascending l.
End Sorted.

(** ** The catalog *)
Record PrivacyStack : Type := {
  key : string;
  name : string;
  family : string;
  description : string;
  privacy_level : Z;
  soundness_focus : Z;
  performance_cost : Z;
  dev_complexity : Z;
  ecosystem_maturity : Z;
}.

Definition aztec : PrivacyStack := {|
  key := "aztec";
  name := "Aztec-style zk Rollup";
  family := "zk-SNARK privacy L2";
  description := "Encrypted L2 state and zero-knowledge proofs over Ethereum.";
  privacy_level := 9;
  soundness_focus := 8;
  performance_cost := 7;
  dev_complexity := 8;
  ecosystem_maturity := 7;
|}.

Definition zama : PrivacyStack := {|
  key := "zama";
  name := "Zama-style FHE Compute";
  family := "FHE + Web3";
  description := "Fully homomorphic encryption over on-chain or off-chain data.";
  privacy_level := 8;
  soundness_focus := 9;
  performance_cost := 9;
  dev_complexity := 9;
  ecosystem_maturity := 5;
|}.

Definition soundness : PrivacyStack := {|
  key := "soundness";
  name := "Soundness-first Lab";
  family := "Formal verification";
  description := "Specification-driven, proof-oriented engineering for Web3 protocols.";
  privacy_level := 6;
  soundness_focus := 10;
  performance_cost := 6;
  dev_complexity := 7;
  ecosystem_maturity := 8;
|}.

(** [STACKS] is a dict that is iterated in declaration order, so it is kept
    as an association list. *)
Definition STACKS : list (string * PrivacyStack) :=
  [("aztec", aztec); ("zama", zama); ("soundness", soundness)].

(** [STACKS[k]] *)
Fixpoint dict_get {V : Type} (d : list (string * V)) (k : string) : result V :=
  match d with
  | [] => Raise KeyError
  | (k', v) :: d' => if String.eqb k k' then Ok v else dict_get d' k
  end.

Definition FIELDS_ORDER : list string :=
  ["key"; "name"; "family"; "privacy_level"; "soundness_focus";
   "performance_cost"; "dev_complexity"; "ecosystem_maturity"].

Definition list_keys : list string := map fst STACKS.

(** A row is a dict from field names to values.  No function iterates over
    a row in insertion order ([json.dumps] sorts the keys), so a finite map
    is a faithful model. *)
Definition to_dict (stack : PrivacyStack) : gmap string value :=
  list_to_map
    [("key", VStr (key stack));
     ("name", VStr (name stack));
     ("family", VStr (family stack));
     ("description", VStr (description stack));
     ("privacy_level", VInt (privacy_level stack));
     ("soundness_focus", VInt (soundness_focus stack));
     ("performance_cost", VInt (performance_cost stack));
     ("dev_complexity", VInt (dev_complexity stack));
     ("ecosystem_maturity", VInt (ecosystem_maturity stack))].

(** The float literals of [score_stack]. *)
Definition lit_0_45 : PyFloat.float := PyFloat.of_ratio false 45 100.
Definition lit_0_40 : PyFloat.float := PyFloat.of_ratio false 40 100.
Definition lit_0_10 : PyFloat.float := PyFloat.of_ratio false 10 100.
Definition lit_0_05 : PyFloat.float := PyFloat.of_ratio false 5 100.

Definition score_stack (stack : PrivacyStack) : PyFloat.float :=
  let benefit :=
    PyFloat.add (PyFloat.mul lit_0_45 (PyFloat.of_int (privacy_level stack)))
                (PyFloat.mul lit_0_40 (PyFloat.of_int (soundness_focus stack))) in
  let penalty :=
    PyFloat.add (PyFloat.mul lit_0_10 (PyFloat.of_int (performance_cost stack)))
                (PyFloat.mul lit_0_05 (PyFloat.of_int (dev_complexity stack))) in
  PyFloat.round (PyFloat.sub benefit penalty) 2.

Definition build_row (include_score : bool) (s : PrivacyStack) : gmap string value :=
  let row := to_dict s in
  if include_score then <["composite_score" := VFloat (score_stack s)]> row
  else row.

Definition build_rows (selected : list PrivacyStack) (include_score : bool)
  : list (gmap string value) :=
  map (build_row include_score) selected.

(** ** Renderers *)

Definition nl : string := String "010"%char EmptyString.
Definition dq : string := String "034"%char EmptyString.

(** [headers = FIELDS_ORDER.copy()], then [headers.append("composite_score")]
    when [include_score] is set. *)
Definition headers_for (include_score : bool) : list string :=
  FIELDS_ORDER ++ (if include_score then ["composite_score"] else []).

(** [row.get(h, "")] *)
Definition get_cell (row : gmap string value) (h : string) : value :=
  default (VStr "") (row !! h).

(** The two loops that fill [col_widths]; a header is always present when
    it is read back, so [col_widths[h]] is a total lookup. *)
Definition init_widths (headers : list string) : gmap string nat :=
  foldl (fun cw h => <[h := String.length h]> cw) ∅ headers.

Definition widen_row (headers : list string) (cw : gmap string nat)
    (row : gmap string value) : gmap string nat :=
  foldl (fun cw h =>
           <[h := Nat.max (cw !!! h) (String.length (py_str (get_cell row h)))]> cw)
        cw headers.

Definition col_widths (headers : list string) (rows : list (gmap string value))
  : gmap string nat :=
  foldl (widen_row headers) (init_widths headers) rows.

Definition table_line (headers : list string) (cw : gmap string nat)
    (row : gmap string value) : string :=
  PyStr.join "  " (map (fun h => PyStr.ljust (py_str (get_cell row h)) (cw !!! h)) headers).

Definition format_table (rows : list (gmap string value)) (include_score : bool)
  : string :=
  let headers := headers_for include_score in
  let cw := col_widths headers rows in
  let header_line :=
    PyStr.join "  " (map (fun h => PyStr.ljust (PyStr.upper h) (cw !!! h)) headers) in
  let separator :=
    PyStr.join "  " (map (fun h => PyStr.repeat_char "-"%char (cw !!! h)) headers) in
  let lines := [header_line; separator] ++ map (table_line headers cw) rows in
  PyStr.join nl lines.

(** The local function [esc] of [format_csv]. *)
Definition esc (v : value) : string :=
  let s := py_str v in
  if existsb (fun c => PyStr.contains c s) [","%char; "034"%char; "010"%char]
  then dq +:+ PyStr.replace "034"%char (dq +:+ dq) s +:+ dq
  else s.

Definition format_csv (rows : list (gmap string value)) (include_score : bool)
  : string :=
  let headers := headers_for include_score in
  let out_lines :=
    PyStr.join "," headers
    :: map (fun row => PyStr.join "," (map (fun h => esc (get_cell row h)) headers)) rows in
  PyStr.join nl out_lines.

(** ** [json.dumps(rows, indent=2, sort_keys=True)] *)
Module Json.

Definition hex_digit (n : nat) : ascii :=
  if (n <? 10)%nat then ascii_of_nat (48 + n) else ascii_of_nat (87 + n).

(** [ensure_ascii] escaping of one character: the short escapes, then
    [\u00xx] for everything outside the printable ASCII range. *)
Definition escape_char (c : ascii) : string :=
  let n := nat_of_ascii c in
  if (n =? 34)%nat then "\" +:+ dq
  else if (n =? 92)%nat then "\\"
  else if (n =? 10)%nat then "\n"
  else if (n =? 13)%nat then "\r"
  else if (n =? 9)%nat then "\t"
  else if (n =? 8)%nat then "\b"
  else if (n =? 12)%nat then "\f"
  else if (32 <=? n)%nat && (n <=? 126)%nat then String c EmptyString
  else "\u00" +:+ String (hex_digit (n / 16)) (String (hex_digit (n mod 16)) EmptyString).

Fixpoint escape (s : string) : string :=
  match s with
  | EmptyString => EmptyString
  | String c s' => escape_char c +:+ escape s'
  end.

Definition encode_string (s : string) : string := dq +:+ escape s +:+ dq.

Definition encode_float (x : PyFloat.float) : string :=
  match x with
  | S754_nan => "NaN"
  | S754_infinity s => if s then "-Infinity" else "Infinity"
  | _ => PyFloat.repr x
  end.

Definition encode_value (v : value) : string :=
  match v with
  | VStr s => encode_string s
  | VInt n => PyStr.of_int n
  | VFloat x => encode_float x
  end.

(** [sorted(dct.items())]: keys are distinct, so the pairs are ordered by
    key alone. *)
Definition item_le (a b : string * value) : Prop := String.leb a.1 b.1 = true.

#[global] Instance item_le_dec (a b : string * value) : Decision (item_le a b).
Proof. unfold item_le. apply _. Defined.

Definition sorted_items (row : gmap string value) : list (string * value) :=
  merge_sort item_le (map_to_list row).

(** A newline followed by [level] indents of two spaces. *)
Definition newline_indent (level : nat) : string :=
  nl +:+ PyStr.repeat_char " "%char (2 * level).

Definition encode_item (kv : string * value) : string :=
  encode_string kv.1 +:+ ": " +:+ encode_value kv.2.

Definition encode_dict (level : nat) (row : gmap string value) : string :=
  match sorted_items row with
  | [] => "{}"
  | items =>
      "{" +:+ newline_indent (S level)
      +:+ PyStr.join ("," +:+ newline_indent (S level)) (map encode_item items)
      +:+ newline_indent level +:+ "}"
  end.

Definition dumps (rows : list (gmap string value)) : string :=
  match rows with
  | [] => "[]"
  | _ =>
      "[" +:+ newline_indent 1
      +:+ PyStr.join ("," +:+ newline_indent 1) (map (encode_dict 1) rows)
      +:+ newline_indent 0 +:+ "]"
  end.

End Json.

(** ** The command line driver *)

Definition select_stacks (k : string) : result (list PrivacyStack) :=
  if String.eqb k "all" then Ok (map snd STACKS)
  else s ← dict_get STACKS k; Ok [s].

(** [if not sort_by: return rows]: [None] and the empty string are falsy. *)
Definition sort_rows (rows : list (gmap string value)) (sort_by : option string)
    (descending : bool) : result (list (gmap string value)) :=
  match sort_by with
  | None => Ok rows
  | Some f =>
      if String.eqb f "" then Ok rows
      else py_sorted (fun r => default (VInt 0) (r !! f)) rows descending
  end.

Inductive output_format : Type := Table | Csv | Json_.

(** The namespace [parse_args] returns. *)
Record Namespace : Type := {
  stack : string;
  format : output_format;
  include_score : bool;
  sort_by : option string;
  descending : bool;
}.

(** What [argparse] accepts: [--stack] and [--sort-by] are restricted to
    their [choices]. *)
Definition valid_args (args : Namespace) : Prop :=
  In (stack args) (list_keys ++ ["all"]) /\
  match sort_by args with
  | None => True
  | Some f => In f (FIELDS_ORDER ++ ["composite_score"])
  end.

(** The body of the loop [for r in rows] of [main]. *)
Definition attach_score (r : gmap string value) : result (gmap string value) :=
  match r !! "key" with
  | Some (VStr k) =>
      s ← dict_get STACKS k;
      Ok (<["composite_score" := VFloat (score_stack s)]> r)
  | _ => Raise KeyError
  end.

Fixpoint attach_scores (rows : list (gmap string value))
  : result (list (gmap string value)) :=
  match rows with
  | [] => Ok []
  | r :: rows' =>
      r' ← attach_score r;
      rest ← attach_scores rows';
      Ok (r' :: rest)
  end.

Definition sorts_by_score (args : Namespace) : bool :=
  match sort_by args with
  | Some f => String.eqb f "composite_score"
  | None => false
  end.

(** The rows [main] hands to the renderer. *)
Definition main_rows (args : Namespace) : result (list (gmap string value)) :=
  stacks ← select_stacks (stack args);
  let rows := build_rows stacks (include_score args) in
  rows ← (if sorts_by_score args && negb (include_score args)
          then attach_scores rows else Ok rows);
  sort_rows rows (sort_by args) (descending args).

(** [print(s)] writes [s] and a newline. *)
Definition print (s : string) : string := s +:+ nl.

(** [main]: the text written to standard output. *)
Definition main (args : Namespace) : result string :=
  rows ← main_rows args;
  Ok (print
        match format args with
        | Json_ => Json.dumps rows
        | Csv => format_csv rows (include_score args || sorts_by_score args)
        | Table => format_table rows (include_score args || sorts_by_score args)
        end).

(** * Specification-side definitions

    What the claims speak of: the spec's formula in exact arithmetic, the
    declared column widths, the layout of the JSON text, the order of
    keys, and the concrete invocations the claims name. *)

(** ** The score *)

(** The spec's formula in exact rational arithmetic: the weights are the
    fractions 45/100, 40/100, 10/100 and 5/100, and the result is rounded
    to two decimals, ties to even. *)
Module ScoreSpec.
Local Open Scope Q_scope.

Definition benefit (st : PrivacyStack) : Q :=
  0.45 * inject_Z (privacy_level st) + 0.40 * inject_Z (soundness_focus st).

Definition penalty (st : PrivacyStack) : Q :=
  0.10 * inject_Z (performance_cost st) + 0.05 * inject_Z (dev_complexity st).

Definition round2 (q : Q) : Q :=
  let h := q * 100 in
  PyFloat.round_half_even (Qnum h) (Qden h) # 100.

Definition score (st : PrivacyStack) : Q := round2 (benefit st - penalty st).

(** The binary64 that a real result denotes: the float nearest to it. *)
Definition nearest_float (q : Q) : PyFloat.float :=
  match Qnum q with
  | Z0 => S754_zero false
  | Zpos n => PyFloat.of_ratio false n (Qden q)
  | Zneg n => PyFloat.of_ratio true n (Qden q)
  end.
End ScoreSpec.

(** The documented range of the five numeric fields. *)
Definition level (n : Z) : Prop := 1 <= n <= 10.

Definition in_range (st : PrivacyStack) : Prop :=
  level (privacy_level st) /\ level (soundness_focus st) /\
  level (performance_cost st) /\ level (dev_complexity st) /\
  level (ecosystem_maturity st).

Definition levels : list Z := [1; 2; 3; 4; 5; 6; 7; 8; 9; 10].

(** Equality of two floats, as data. *)
Definition float_eqb (a b : PyFloat.float) : bool :=
  match a, b with
  | S754_zero s, S754_zero t => Bool.eqb s t
  | S754_infinity s, S754_infinity t => Bool.eqb s t
  | S754_nan, S754_nan => true
  | S754_finite s m e, S754_finite t n f => Bool.eqb s t && Pos.eqb m n && Z.eqb e f
  | _, _ => false
  end.

(** A stack with the four fields that enter the score and nothing else. *)
Definition probe (p s c d : Z) : PrivacyStack := {|
  key := ""; name := ""; family := ""; description := "";
  privacy_level := p; soundness_focus := s;
  performance_cost := c; dev_complexity := d; ecosystem_maturity := 1;
|}.

(** The code and the formula agree on these four levels. *)
Definition score_agrees (p s c d : Z) : bool :=
  float_eqb (score_stack (probe p s c d))
            (ScoreSpec.nearest_float (ScoreSpec.score (probe p s c d))).

(** The same stack with another [ecosystem_maturity]. *)
Definition with_maturity (st : PrivacyStack) (m : Z) : PrivacyStack := {|
  key := key st; name := name st; family := family st;
  description := description st;
  privacy_level := privacy_level st; soundness_focus := soundness_focus st;
  performance_cost := performance_cost st; dev_complexity := dev_complexity st;
  ecosystem_maturity := m;
|}.

(** ** Rows *)

(** What one row holds, given the stack it was built from. *)
Definition row_of (include_score : bool) (s : PrivacyStack)
    (r : gmap string value) : Prop :=
  dom r = (list_to_set FIELDS_ORDER ∪ {["description"]}
           ∪ (if include_score then {["composite_score"]} else ∅) : gset string) /\
  r !! "key" = Some (VStr (key s)) /\
  r !! "name" = Some (VStr (name s)) /\
  r !! "family" = Some (VStr (family s)) /\
  r !! "description" = Some (VStr (description s)) /\
  r !! "privacy_level" = Some (VInt (privacy_level s)) /\
  r !! "soundness_focus" = Some (VInt (soundness_focus s)) /\
  r !! "performance_cost" = Some (VInt (performance_cost s)) /\
  r !! "dev_complexity" = Some (VInt (dev_complexity s)) /\
  r !! "ecosystem_maturity" = Some (VInt (ecosystem_maturity s)) /\
  r !! "composite_score" =
    (if include_score then Some (VFloat (score_stack s)) else None).

(** ** CSV quoting *)

Definition comma_char : ascii := ","%char.
Definition quote_char : ascii := "034"%char.
Definition newline_char : ascii := "010"%char.

(** The spec's words: a value needs quoting when a comma, a double quote or
    a newline occurs in it, and quoting doubles every double quote. *)
Definition needs_quoting (s : string) : Prop :=
  exists c, In c [comma_char; quote_char; newline_char] /\
            In c (list_ascii_of_string s).

Definition doubled (s : string) : string :=
  string_of_list_ascii
    (flat_map (fun c => if Ascii.eqb c quote_char then [quote_char; quote_char] else [c])
              (list_ascii_of_string s)).

Definition said_hi : string := "He said " +:+ dq +:+ "hi" +:+ dq +:+ ", ok".

(** ** Tables and their columns *)

(** The spec's words: the width of a column is the maximum of the length
    of its uppercased header label and of the lengths of its stringified
    row values. *)
Definition cell_text (row : gmap string value) (h : string) : string :=
  py_str (get_cell row h).

Definition column_width (rows : list (gmap string value)) (h : string) : nat :=
  foldr Nat.max (String.length (PyStr.upper h))
        (map (fun r => String.length (cell_text r h)) rows).

(** The three kinds of line of a table, over the declared widths. *)
Definition header_line (headers : list string) (rows : list (gmap string value))
  : string :=
  PyStr.join "  "
    (map (fun h => PyStr.ljust (PyStr.upper h) (column_width rows h)) headers).

Definition separator_line (headers : list string) (rows : list (gmap string value))
  : string :=
  PyStr.join "  "
    (map (fun h => PyStr.repeat_char "-"%char (column_width rows h)) headers).

Definition data_line (headers : list string) (rows : list (gmap string value))
    (r : gmap string value) : string :=
  PyStr.join "  "
    (map (fun h => PyStr.ljust (cell_text r h) (column_width rows h)) headers).

(** The lines of a printed text, and the labels of a table line. *)
Definition output_lines (out : string) : list string :=
  match rev (PyStr.split newline_char out) with
  | EmptyString :: r => rev r
  | _ => PyStr.split newline_char out
  end.

Definition table_columns (line : string) : list string :=
  List.filter (fun w => negb (String.eqb w "")) (PyStr.split " "%char line).

(** [--stack aztec --format table] *)
Definition aztec_table_args : Namespace := {|
  stack := "aztec"; format := Table; include_score := false;
  sort_by := None; descending := false;
|}.

Definition aztec_table_lines : list string :=
  ["KEY    NAME                   FAMILY               PRIVACY_LEVEL  SOUNDNESS_FOCUS  PERFORMANCE_COST  DEV_COMPLEXITY  ECOSYSTEM_MATURITY";
   "-----  ---------------------  -------------------  -------------  ---------------  ----------------  --------------  ------------------";
   "aztec  Aztec-style zk Rollup  zk-SNARK privacy L2  9              8                7                 8               7                 "].

(** The same stack with another [description]. *)
Definition with_description (d : string) (s : PrivacyStack) : PrivacyStack := {|
  key := key s; name := name s; family := family s;
  description := d;
  privacy_level := privacy_level s; soundness_focus := soundness_focus s;
  performance_cost := performance_cost s; dev_complexity := dev_complexity s;
  ecosystem_maturity := ecosystem_maturity s;
|}.

(** The cells a renderer reads from the rows: one per header, per row. *)
Definition cells (headers : list string) (rows : list (gmap string value))
  : list (list value) :=
  map (fun r => map (get_cell r) headers) rows.

(** The column labels a rendered text shows on its first line: the cells of
    the CSV header, the words of the table header. *)
Definition rendered_columns (fmt : output_format) (out : string) : list string :=
  match fmt, output_lines out with
  | Csv, l :: _ => PyStr.split ","%char l
  | Table, l :: _ => table_columns l
  | _, _ => []
  end.

(** How a renderer writes a header name. *)
Definition label (fmt : output_format) (h : string) : string :=
  match fmt with
  | Table => PyStr.upper h
  | _ => h
  end.

(** The same options with another [--include-score]. *)
Definition with_include_score (b : bool) (args : Namespace) : Namespace := {|
  stack := stack args; format := format args; include_score := b;
  sort_by := sort_by args; descending := descending args;
|}.

(** The columns of the output of [main] are those of the effective flag. *)
Definition columns_as_expected (args : Namespace) : bool :=
  match main args with
  | Ok out =>
      bool_decide
        (rendered_columns (format args) out
         = map (label (format args))
               (headers_for (include_score args || sorts_by_score args)))
  | Raise _ => false
  end.

(** The [choices] of [--stack] and [--sort-by]. *)
Definition stack_choices : list string := list_keys ++ ["all"].
Definition sort_choices : list (option string) :=
  None :: map Some (FIELDS_ORDER ++ ["composite_score"]).
Definition flags : list bool := [false; true].

(** [--stack all --sort-by composite_score --descending --format csv] *)
Definition csv_by_score_args : Namespace := {|
  stack := "all"; format := Csv; include_score := false;
  sort_by := Some "composite_score"; descending := true;
|}.

(** ** JSON text *)

(** Code point order on strings. *)
Definition str_lt (a b : string) : Prop := String.ltb a b = true.

(** The layout of the JSON text, in the spec's words: an array of objects,
    each element on lines of its own, two spaces of indentation per nesting
    level, elements separated by a comma at the end of the line. *)
Module JsonSpec.

Definition indent (level : nat) (s : string) : string :=
  PyStr.repeat_char " "%char (2 * level) +:+ s.

Definition block (opening closing : string) (level : nat) (elems : list string)
  : string :=
  match elems with
  | [] => opening +:+ closing
  | _ =>
      opening +:+ nl
      +:+ PyStr.join ("," +:+ nl) (map (indent (S level)) elems)
      +:+ nl +:+ indent level closing
  end.

(** A member is a key, already escaped, and the text of its value. *)
Definition member (kv : string * string) : string :=
  (dq +:+ kv.1 +:+ dq) +:+ ": " +:+ kv.2.

Definition object_text (level : nat) (members : list (string * string)) : string :=
  block "{" "}" level (map member members).

Definition array_text (objects : list (list (string * string))) : string :=
  block "[" "]" 0 (map (object_text 1) objects).

End JsonSpec.

Definition members_of (row : gmap string value) : list (string * string) :=
  map (fun kv => (Json.escape kv.1, Json.encode_value kv.2)) (Json.sorted_items row).

(** [--stack all --format json --include-score] *)
Definition json_all_args : Namespace := {|
  stack := "all"; format := Json_; include_score := true;
  sort_by := None; descending := false;
|}.

Definition quoted (s : string) : string := dq +:+ s +:+ dq.

(** The document that invocation prints: three objects of ten members. *)
Definition catalog_json : list (list (string * string)) :=
 [
  [("composite_score", "6.15");
   ("description", quoted "Encrypted L2 state and zero-knowledge proofs over Ethereum.");
   ("dev_complexity", "8");
   ("ecosystem_maturity", "7");
   ("family", quoted "zk-SNARK privacy L2");
   ("key", quoted "aztec");
   ("name", quoted "Aztec-style zk Rollup");
   ("performance_cost", "7");
   ("privacy_level", "9");
   ("soundness_focus", "8")];
  [("composite_score", "5.85");
   ("description", quoted "Fully homomorphic encryption over on-chain or off-chain data.");
   ("dev_complexity", "9");
   ("ecosystem_maturity", "5");
   ("family", quoted "FHE + Web3");
   ("key", quoted "zama");
   ("name", quoted "Zama-style FHE Compute");
   ("performance_cost", "9");
   ("privacy_level", "8");
   ("soundness_focus", "9")];
  [("composite_score", "5.75");
   ("description", quoted "Specification-driven, proof-oriented engineering for Web3 protocols.");
   ("dev_complexity", "7");
   ("ecosystem_maturity", "8");
   ("family", quoted "Formal verification");
   ("key", quoted "soundness");
   ("name", quoted "Soundness-first Lab");
   ("performance_cost", "6");
   ("privacy_level", "6");
   ("soundness_focus", "10")]
 ].

(** ** The order [sort_rows] sorts by *)

(** [<] on the kinds of key; across kinds there is no order. *)
Definition kind_ltb (a b : key_kind) : bool :=
  match a, b with
  | KStr s, KStr t => String.ltb s t
  | KNum x, KNum y => num_ltb x y
  | _, _ => false
  end.

(** [<], [<=] and key equality of two elements, through their keys. *)
Definition ltb {A : Type} (key : A -> value) (a b : A) : bool :=
  kind_ltb (kind_of (key a)) (kind_of (key b)).

Definition le {A : Type} (key : A -> value) (a b : A) : Prop := ltb key b a = false.

Definition eqvb {A : Type} (key : A -> value) (a b : A) : bool :=
  negb (ltb key a b) && negb (ltb key b a).

(** The key [sort_rows] sorts by: [row.get(sort_by, 0)]. *)
Definition sort_key (f : string) (r : gmap string value) : value :=
  default (VInt 0) (r !! f).

(** The spec's words: ascending order is [not (y < x)] between a row and
    every later one, and two keys are equal when neither is smaller. *)
Definition key_le (x y : value) : Prop := value_lt y x = Ok false.

Definition same_key (x y : value) : bool :=
  match value_lt x y, value_lt y x with
  | Ok false, Ok false => true
  | _, _ => false
  end.

(** Keys that [<] orders: all strings, or all numbers other than NaN. *)
Definition str_keyed (f : string) (r : gmap string value) : Prop :=
  exists s, kind_of (sort_key f r) = KStr s.

Definition num_keyed (f : string) (r : gmap string value) : Prop :=
  exists n, kind_of (sort_key f r) = KNum n /\ n <> NaN.

Definition orderable (f : string) (rows : list (gmap string value)) : Prop :=
  Forall (str_keyed f) rows \/ Forall (num_keyed f) rows.

(** Rows with tied keys: an [int] 2, an [int] 1, a [float] 2.0 and a row
    without the field, told apart by their [tag]. *)
Definition tagged (k : option value) (tag : string) : gmap string value :=
  match k with
  | Some v => {["k" := v; "tag" := VStr tag]}
  | None => {["tag" := VStr tag]}
  end.

Definition tie_rows : list (gmap string value) :=
  [tagged (Some (VInt 2)) "a"; tagged (Some (VInt 1)) "b";
   tagged (Some (VFloat (PyFloat.of_int 2))) "c"; tagged None "d"].

(** * Further specification-side definitions

    Readers for the texts the renderers write, the kinds of sort key, the
    shape of a table, and the score as a count of hundredths. *)

(** ** Kinds of sort key *)

(** Two values [<] can compare: both strings, or both numbers. *)
Definition same_kind (x y : value) : bool :=
  match kind_of x, kind_of y with
  | KStr _, KStr _ | KNum _, KNum _ => true
  | _, _ => false
  end.

(** A row keyed by a number, NaN included. *)
Definition number_keyed (f : string) (r : gmap string value) : Prop :=
  exists n, kind_of (sort_key f r) = KNum n.

(** Three rows with distinct keys: 2, 1, and a missing field (keyed 0). *)
Definition distinct_rows : list (gmap string value) :=
  [tagged (Some (VInt 2)) "a"; tagged (Some (VInt 1)) "b"; tagged None "d"].

(** ** The shape of a table and of a CSV record *)

(** The length of every line of a table: the widths of its columns and two
    spaces between neighbours. *)
Definition table_width (headers : list string) (rows : list (gmap string value))
  : nat :=
  (list_sum (map (column_width rows) headers) + 2 * (length headers - 1))%nat.

(** One CSV record: the escaped cells of a row under the headers. *)
Definition csv_record (headers : list string) (r : gmap string value) : string :=
  PyStr.join "," (map (fun h => esc (get_cell r h)) headers).

(** ** Reading a CSV cell back *)

(** Inside a quoted cell, two double quotes stand for one and a single
    double quote closes the cell. *)
Fixpoint undouble (s : string) : string :=
  match s with
  | EmptyString => EmptyString
  | String c s' =>
      if Ascii.eqb c quote_char then
        match s' with
        | String c' s'' =>
            if Ascii.eqb c' quote_char then String quote_char (undouble s'')
            else EmptyString
        | EmptyString => EmptyString
        end
      else String c (undouble s')
  end.

(** A cell that opens with a double quote is quoted; any other is verbatim. *)
Definition unquote (s : string) : string :=
  match s with
  | String c s' => if Ascii.eqb c quote_char then undouble s' else s
  | EmptyString => s
  end.

(** ** Reading a JSON string back *)

Definition hex_value (c : ascii) : nat :=
  let n := nat_of_ascii c in
  if (48 <=? n)%nat && (n <=? 57)%nat then (n - 48)%nat
  else if (97 <=? n)%nat && (n <=? 102)%nat then (n - 87)%nat
  else 0%nat.

(** What a JSON reader makes of the inside of a string: a backslash
    introduces one of the short escapes or [u] and four hexadecimal
    digits; any other character stands for itself. *)
Fixpoint unescape (s : string) : string :=
  match s with
  | EmptyString => EmptyString
  | String c s' =>
      if (nat_of_ascii c =? 92)%nat then
        match s' with
        | String e s'' =>
            let n := nat_of_ascii e in
            if (n =? 34)%nat then String "034"%char (unescape s'')
            else if (n =? 92)%nat then String "092"%char (unescape s'')
            else if (n =? 110)%nat then String "010"%char (unescape s'')
            else if (n =? 114)%nat then String "013"%char (unescape s'')
            else if (n =? 116)%nat then String "009"%char (unescape s'')
            else if (n =? 98)%nat then String "008"%char (unescape s'')
            else if (n =? 102)%nat then String "012"%char (unescape s'')
            else if (n =? 117)%nat then
              match s'' with
              | String h1 (String h2 (String h3 (String h4 rest))) =>
                  String (ascii_of_nat
                            (4096 * hex_value h1 + 256 * hex_value h2
                             + 16 * hex_value h3 + hex_value h4))
                         (unescape rest)
              | _ => EmptyString
              end
            else EmptyString
        | EmptyString => EmptyString
        end
      else String c (unescape s')
  end.

(** Printable ASCII: the characters from the space to the tilde. *)
Definition printable (c : ascii) : Prop :=
  (32 <= nat_of_ascii c <= 126)%nat.

(** The fields of a row in the order JSON prints them. *)
Definition json_fields (s : PrivacyStack) : list (string * value) :=
  [("description", VStr (description s));
   ("dev_complexity", VInt (dev_complexity s));
   ("ecosystem_maturity", VInt (ecosystem_maturity s));
   ("family", VStr (family s));
   ("key", VStr (key s));
   ("name", VStr (name s));
   ("performance_cost", VInt (performance_cost s));
   ("privacy_level", VInt (privacy_level s));
   ("soundness_focus", VInt (soundness_focus s))].

(** ** The score as a count of hundredths *)

(** The exact score times one hundred. *)
Definition hundredths (st : PrivacyStack) : Z :=
  45 * privacy_level st + 40 * soundness_focus st
  - (10 * performance_cost st + 5 * dev_complexity st).

(** The float nearest to [n] hundredths. *)
Definition decimal2 (n : Z) : PyFloat.float := ScoreSpec.nearest_float (n # 100).

(** The hundredths a stack in range can score: the multiples of five from
    -0.65 to 8.35. *)
Definition score_grid : list Z := map (fun j => 5 * j) (seqZ (-13) 181).

(** The floats of the grid, as exact numbers. *)
Definition grid_floats : list (Z * num) :=
  map (fun n => (n, num_of_float (decimal2 n))) score_grid.

(** ** Reading a CSV text back *)

(** A CSV reader: cells end at a comma, records at a newline; a cell that
    opens with a double quote runs to its closing quote, with two double
    quotes inside standing for one, and may hold commas and newlines.
    [cur] is the current cell and [fields] the cells of the current
    record, both latest first. *)
Inductive csv_mode : Type := AtStart | InPlain | InQuoted | AfterQuote.

Definition cell_of (cur : list ascii) : string := string_of_list_ascii (rev cur).

Fixpoint parse_csv_go (mode : csv_mode) (cur : list ascii) (fields : list string)
    (s : string) : list (list string) :=
  match s with
  | EmptyString => [rev (cell_of cur :: fields)]
  | String c s' =>
      match mode with
      | InQuoted =>
          if Ascii.eqb c quote_char then parse_csv_go AfterQuote cur fields s'
          else parse_csv_go InQuoted (c :: cur) fields s'
      | AfterQuote =>
          if Ascii.eqb c quote_char then parse_csv_go InQuoted (c :: cur) fields s'
          else if Ascii.eqb c comma_char
          then parse_csv_go AtStart [] (cell_of cur :: fields) s'
          else if Ascii.eqb c newline_char
          then rev (cell_of cur :: fields) :: parse_csv_go AtStart [] [] s'
          else parse_csv_go InPlain (c :: cur) fields s'
      | AtStart =>
          if Ascii.eqb c quote_char then parse_csv_go InQuoted [] fields s'
          else if Ascii.eqb c comma_char
          then parse_csv_go AtStart [] (cell_of [] :: fields) s'
          else if Ascii.eqb c newline_char
          then rev (cell_of [] :: fields) :: parse_csv_go AtStart [] [] s'
          else parse_csv_go InPlain [c] fields s'
      | InPlain =>
          if Ascii.eqb c comma_char
          then parse_csv_go AtStart [] (cell_of cur :: fields) s'
          else if Ascii.eqb c newline_char
          then rev (cell_of cur :: fields) :: parse_csv_go AtStart [] [] s'
          else parse_csv_go InPlain (c :: cur) fields s'
      end
  end.

Definition parse_csv (s : string) : list (list string) := parse_csv_go AtStart [] [] s.

(** The cells of a record after its first, each behind a comma, and the
    records of a text after its first, each behind a newline. *)
Fixpoint more_cells (vs : list value) : string :=
  match vs with
  | [] => EmptyString
  | v :: vs' => "," +:+ esc v +:+ more_cells vs'
  end.

Fixpoint more_records (recs : list (value * list value)) : string :=
  match recs with
  | [] => EmptyString
  | (v, vs) :: recs' => nl +:+ esc v +:+ more_cells vs +:+ more_records recs'
  end.

(** What the reader does once a cell is complete, on what follows it. *)
Definition after_cell (cell : string) (fields : list string) (tail : string)
  : list (list string) :=
  match tail with
  | EmptyString => [rev (cell :: fields)]
  | String c t =>
      if Ascii.eqb c comma_char then parse_csv_go AtStart [] (cell :: fields) t
      else rev (cell :: fields) :: parse_csv_go AtStart [] [] t
  end.

(** A text that is over or goes on with a comma or a newline. *)
Definition separator_led (tail : string) : Prop :=
  match tail with
  | EmptyString => True
  | String c _ => c = comma_char \/ c = newline_char
  end.

(** The same once the last cell of a record is complete; [cells] holds the
    cells of the record, latest first. *)
Definition end_record (cells : list string) (tail : string) : list (list string) :=
  match cells with
  | c :: fields => after_cell c fields tail
  | [] => []
  end.

(** ** The score column of [main] *)

(** The claim's condition for showing the score: [--include-score] is set
    or [--sort-by] is [composite_score]. *)
Definition score_shown (args : Namespace) : bool :=
  bool_decide (include_score args = true \/ sort_by args = Some "composite_score").

(** A row that holds the fields of one of the stacks, the score among them
    exactly when [b] is set. *)
Definition row_among (stacks : list PrivacyStack) (b : bool)
    (r : gmap string value) : Prop :=
  exists s, In s stacks /\ row_of b s r.

(** Two rows in the order of their scores, in the direction asked. *)
Definition score_ordered (descending : bool) (a b : gmap string value) : Prop :=
  if descending
  then key_le (sort_key "composite_score" b) (sort_key "composite_score" a)
  else key_le (sort_key "composite_score" a) (sort_key "composite_score" b).

(** [--stack all --sort-by composite_score --format csv], without
    [--include-score], and the lines it prints: the lowest score first. *)
Definition csv_ascending_by_score_args : Namespace := {|
  stack := "all"; format := Csv; include_score := false;
  sort_by := Some "composite_score"; descending := false;
|}.

Definition csv_ascending_by_score_lines : list string :=
  ["key,name,family,privacy_level,soundness_focus,performance_cost,dev_complexity,ecosystem_maturity,composite_score";
   "soundness,Soundness-first Lab,Formal verification,6,10,6,7,8,5.75";
   "zama,Zama-style FHE Compute,FHE + Web3,8,9,9,9,5,5.85";
   "aztec,Aztec-style zk Rollup,zk-SNARK privacy L2,9,8,7,8,7,6.15"].

(** * The scorer *)

Lemma level_in_levels n : level n -> In n levels.
Proof.
  unfold level, levels; intros H.
  assert (n = 1 \/ n = 2 \/ n = 3 \/ n = 4 \/ n = 5 \/
          n = 6 \/ n = 7 \/ n = 8 \/ n = 9 \/ n = 10) as Hn by lia.
  simpl; intuition.
Qed.

Lemma float_eqb_eq a b : float_eqb a b = true -> a = b.
Proof.
  destruct a, b; simpl; try discriminate; try reflexivity.
  - intros H; apply Bool.eqb_prop in H; congruence.
  - intros H; apply Bool.eqb_prop in H; congruence.
  - intros H. apply andb_prop in H as [H He]. apply andb_prop in H as [Hs Hm].
    apply Bool.eqb_prop in Hs. apply Pos.eqb_eq in Hm. apply Z.eqb_eq in He.
    congruence.
Qed.

Lemma score_agrees_everywhere :
  forallb (fun p => forallb (fun s => forallb (fun c => forallb (fun d =>
    score_agrees p s c d) levels) levels) levels) levels = true.
Proof. vm_compute. reflexivity. Qed.

Lemma score_stack_probe st :
  score_stack st =
  score_stack (probe (privacy_level st) (soundness_focus st)
                     (performance_cost st) (dev_complexity st)).
Proof. reflexivity. Qed.

Lemma score_spec_probe st :
  ScoreSpec.score st =
  ScoreSpec.score (probe (privacy_level st) (soundness_focus st)
                         (performance_cost st) (dev_complexity st)).
Proof. reflexivity. Qed.

Lemma score_stack_in_range st :
  in_range st -> score_stack st = ScoreSpec.nearest_float (ScoreSpec.score st).
Proof.
  intros (Hp & Hs & Hc & Hd & _).
  rewrite score_stack_probe, score_spec_probe.
  apply float_eqb_eq.
  pose proof score_agrees_everywhere as H.
  rewrite forallb_forall in H. specialize (H _ (level_in_levels _ Hp)).
  rewrite forallb_forall in H. specialize (H _ (level_in_levels _ Hs)).
  rewrite forallb_forall in H. specialize (H _ (level_in_levels _ Hc)).
  rewrite forallb_forall in H. exact (H _ (level_in_levels _ Hd)).
Qed.

(** C1, the claim as stated, fails at the catalog entry zama: its score is
    the float 5.85, not 6.25 (0.45*8 + 0.40*9 - (0.10*9 + 0.05*9) = 5.85). *)
Lemma score_stack_zama_is_not_6_25 :
  score_stack zama <> ScoreSpec.nearest_float 6.25%Q /\
  PyFloat.repr (score_stack zama) = "5.85".
Proof. split; [vm_compute; discriminate | vm_compute; reflexivity]. Qed.

(** C1 (amended): for every stack whose five numeric fields lie in [1,10],
    [score_stack] returns the float nearest to the exact value of
    round(0.45*privacy_level + 0.40*soundness_focus
          - (0.10*performance_cost + 0.05*dev_complexity), 2),
    and changing ecosystem_maturity does not change it; for the catalog the
    results are 6.15 for aztec, 5.85 for zama and 5.75 for soundness. *)
Theorem score_stack_formula (st : PrivacyStack) (H : in_range st) :
  score_stack st = ScoreSpec.nearest_float (ScoreSpec.score st) /\
  (forall m, score_stack (with_maturity st m) = score_stack st) /\
  score_stack aztec = ScoreSpec.nearest_float 6.15%Q /\
  score_stack zama = ScoreSpec.nearest_float 5.85%Q /\
  score_stack soundness = ScoreSpec.nearest_float 5.75%Q /\
  map (fun s => PyFloat.repr (score_stack s)) [aztec; zama; soundness]
  = ["6.15"; "5.85"; "5.75"].
Proof.
  split; [exact (score_stack_in_range st H) |].
  split; [intros m; reflexivity |].
  repeat split; vm_compute; reflexivity.
Qed.

Lemma score_stack_formula_witness :
  score_stack aztec = ScoreSpec.nearest_float (ScoreSpec.score aztec).
Proof.
  apply (score_stack_formula aztec).
  unfold in_range, level; simpl; lia.
Defined.

(** * The row builder *)

Lemma to_dict_dom s :
  dom (to_dict s) = (list_to_set FIELDS_ORDER ∪ {["description"]} : gset string).
Proof.
  unfold to_dict. rewrite dom_list_to_map_L. simpl. set_solver.
Qed.

Lemma to_dict_no_score s : to_dict s !! "composite_score" = None.
Proof.
  apply not_elem_of_dom. rewrite to_dict_dom.
  apply (bool_decide_unpack _). vm_compute. exact I.
Qed.

Lemma build_row_spec b s : row_of b s (build_row b s).
Proof.
  unfold row_of, build_row. destruct b.
  - split.
    + rewrite dom_insert_L, to_dict_dom. set_solver.
    + repeat split.
  - split.
    + rewrite to_dict_dom. set_solver.
    + repeat split.
Qed.

(** C2, the claim as stated, fails: the row built for aztec without the
    score holds a ninth key, [description], besides the eight base fields. *)
Lemma build_rows_base_fields_counterexample :
  ~ Forall (fun r => dom r = (list_to_set FIELDS_ORDER : gset string))
           (build_rows [aztec] false).
Proof.
  intros H. apply Forall_inv in H.
  assert ("description" ∈ dom (build_row false aztec)) as Hin.
  { unfold build_row. rewrite to_dict_dom. set_solver. }
  rewrite H in Hin. revert Hin.
  apply (bool_decide_unpack _). vm_compute. exact I.
Qed.

(** C2 (amended): [build_rows] produces one row per input stack, in input
    order; each row holds the eight base fields of the field order and the
    [description] field, with the values of its stack; with
    [include_score=false] there is no [composite_score] key, and with
    [include_score=true] the row also holds [composite_score], equal to
    [score_stack] of that stack. *)
Theorem build_rows_fields (stacks : list PrivacyStack) (include_score : bool) :
  Forall2 (row_of include_score) stacks (build_rows stacks include_score).
Proof.
  unfold build_rows. induction stacks as [|s stacks IH]; simpl.
  - constructor.
  - constructor; [apply build_row_spec | exact IH].
Qed.

(** * The catalog and the transient score *)

Lemma dict_get_catalog s :
  In s (map snd STACKS) -> dict_get STACKS (key s) = Ok s.
Proof.
  simpl. intros [<- | [<- | [<- | []]]]; reflexivity.
Qed.

Lemma dict_get_In {V} (d : list (string * V)) k v :
  dict_get d k = Ok v -> In (k, v) d.
Proof.
  induction d as [|[k' v'] d IH]; simpl; [discriminate |].
  destruct (String.eqb k k') eqn:E.
  - apply String.eqb_eq in E. intros [= ->]. left. congruence.
  - intros H. right. auto.
Qed.

Lemma select_stacks_catalog k stacks :
  select_stacks k = Ok stacks -> Forall (fun s => In s (map snd STACKS)) stacks.
Proof.
  unfold select_stacks. destruct (String.eqb k "all").
  - intros [= <-]. apply List.Forall_forall. intros x Hx. exact Hx.
  - destruct (dict_get STACKS k) as [s|e] eqn:E; simpl; [|discriminate].
    intros [= <-]. constructor; [|constructor].
    apply dict_get_In in E. apply (in_map snd) in E. exact E.
Qed.

Lemma attach_score_build_row s :
  In s (map snd STACKS) -> attach_score (build_row false s) = Ok (build_row true s).
Proof.
  intros H. unfold attach_score, build_row.
  change (to_dict s !! "key") with (Some (VStr (key s))). cbv iota.
  rewrite (dict_get_catalog s H). reflexivity.
Qed.

Lemma attach_scores_build_rows stacks :
  Forall (fun s => In s (map snd STACKS)) stacks ->
  attach_scores (build_rows stacks false) = Ok (build_rows stacks true).
Proof.
  induction 1 as [|s stacks Hs _ IH]; [reflexivity |].
  change (build_rows (s :: stacks) false)
    with (build_row false s :: build_rows stacks false).
  cbn [attach_scores].
  rewrite (attach_score_build_row s Hs), IH. reflexivity.
Qed.

(** C10: every record of [STACKS] is stored under its own [key]; hence, for
    the stacks [select_stacks] returns, the score [main] attaches to the
    rows built without it is the one [build_rows] attaches with
    [include_score=true]. *)
Theorem catalog_key_consistent (k : string) (stacks : list PrivacyStack)
    (H : select_stacks k = Ok stacks) :
  Forall (fun kv => key kv.2 = kv.1) STACKS /\
  attach_scores (build_rows stacks false) = Ok (build_rows stacks true).
Proof.
  split.
  - repeat constructor.
  - apply attach_scores_build_rows, (select_stacks_catalog k), H.
Qed.

Lemma catalog_key_consistent_witness :
  attach_scores (build_rows [aztec; zama; soundness] false)
  = Ok (build_rows [aztec; zama; soundness] true).
Proof.
  apply (catalog_key_consistent "all" [aztec; zama; soundness]).
  reflexivity.
Defined.

(** * The sorter *)

(** C4: with [sort_by] absent, [sort_rows] returns its input list unchanged,
    whatever the [descending] flag. *)
Theorem sort_rows_absent_identity (rows : list (gmap string value))
    (descending : bool) :
  sort_rows rows None descending = Ok rows.
Proof. reflexivity. Qed.

(** * CSV escaping *)

Lemma contains_In c s :
  PyStr.contains c s = true <-> In c (list_ascii_of_string s).
Proof.
  induction s as [|d s IH]; simpl.
  - split; [discriminate | intros []].
  - destruct (Ascii.eqb c d) eqn:E.
    + apply Ascii.eqb_eq in E. split; auto.
    + apply Ascii.eqb_neq in E. rewrite IH. split; [auto | intros [H | H]; congruence].
Qed.

Lemma replace_quote_doubled s :
  PyStr.replace quote_char (dq +:+ dq) s = doubled s.
Proof.
  unfold doubled. induction s as [|d s IH]; [reflexivity |].
  cbn [PyStr.replace list_ascii_of_string flat_map].
  rewrite (Ascii.eqb_sym quote_char d).
  destruct (Ascii.eqb d quote_char); cbn [app string_of_list_ascii];
    rewrite <- IH; reflexivity.
Qed.

Lemma esc_test_iff s :
  existsb (fun c => PyStr.contains c s) [comma_char; quote_char; newline_char] = true
  <-> needs_quoting s.
Proof.
  rewrite existsb_exists. unfold needs_quoting.
  split; intros (c & Hc & H); exists c; split; auto; apply contains_In; exact H.
Qed.

Lemma esc_unfold v :
  esc v =
  if existsb (fun c => PyStr.contains c (py_str v)) [comma_char; quote_char; newline_char]
  then dq +:+ PyStr.replace quote_char (dq +:+ dq) (py_str v) +:+ dq
  else py_str v.
Proof. reflexivity. Qed.

(** C6: [esc] returns the string form of the value unchanged when it holds
    no comma, double quote or newline, and otherwise wraps it in double
    quotes with every double quote inside doubled; the value [said_hi],
    a sentence holding a quoted word and a comma, comes out wrapped, with
    the two quotes around the word doubled. *)
Theorem esc_quoting (v : value) :
  (needs_quoting (py_str v) -> esc v = dq +:+ doubled (py_str v) +:+ dq) /\
  (~ needs_quoting (py_str v) -> esc v = py_str v) /\
  esc (VStr said_hi)
  = dq +:+ "He said " +:+ dq +:+ dq +:+ "hi" +:+ dq +:+ dq +:+ ", ok" +:+ dq.
Proof.
  split; [|split].
  - intros H. rewrite esc_unfold. apply esc_test_iff in H. rewrite H.
    rewrite replace_quote_doubled. reflexivity.
  - intros H. rewrite esc_unfold.
    destruct (existsb _ _) eqn:E; [|reflexivity].
    apply esc_test_iff in E. contradiction.
  - vm_compute. reflexivity.
Qed.

Lemma esc_quoting_witness :
  esc (VStr "a,b") = dq +:+ doubled "a,b" +:+ dq /\ esc (VInt 7) = "7".
Proof.
  split.
  - apply (proj1 (esc_quoting (VStr "a,b"))).
    exists comma_char. split; simpl; auto.
  - apply (proj1 (proj2 (esc_quoting (VInt 7)))).
    intros (c & Hc & H). vm_compute in H, Hc.
    destruct H as [<- | []].
    destruct Hc as [Hc | [Hc | [Hc | []]]]; discriminate.
Defined.

(** * The table renderer *)

Lemma upper_length s : String.length (PyStr.upper s) = String.length s.
Proof.
  induction s as [|c s IH]; [reflexivity |].
  cbn [PyStr.upper String.length]. rewrite IH. reflexivity.
Qed.

Lemma string_app_length s t :
  String.length (s +:+ t) = (String.length s + String.length t)%nat.
Proof.
  induction s as [|c s IH]; [reflexivity |].
  change (S (String.length (s +:+ t)) = S (String.length s + String.length t)).
  rewrite IH. reflexivity.
Qed.

Lemma repeat_char_length c n : String.length (PyStr.repeat_char c n) = n.
Proof. induction n as [|n IH]; simpl; congruence. Qed.

Lemma ljust_length s w :
  (String.length s <= w)%nat -> String.length (PyStr.ljust s w) = w.
Proof.
  intros H. unfold PyStr.ljust. rewrite string_app_length, repeat_char_length. lia.
Qed.

Section Widths.
Variable headers : list string.

Lemma init_widths_from (cw : gmap string nat) hs h :
  In h hs ->
  foldl (fun (cw : gmap string nat) h => <[h := String.length h]> cw) cw hs !!! h
  = String.length h.
Proof.
  revert cw. induction hs as [|h' hs IH] using rev_ind; intros cw Hin; [destruct Hin |].
  rewrite foldl_snoc. apply in_app_or in Hin.
  destruct (decide (h' = h)) as [-> | Hne].
  - apply lookup_total_insert_eq.
  - rewrite lookup_total_insert_ne by exact Hne.
    destruct Hin as [Hin | [Heq | []]]; [apply IH, Hin | congruence].
Qed.

Lemma widen_row_from hs (cw : gmap string nat) row h :
  foldl (fun (cw : gmap string nat) h =>
           <[h := Nat.max (cw !!! h) (String.length (py_str (get_cell row h)))]> cw)
        cw hs !!! h
  = if decide (h ∈ hs)
    then Nat.max (cw !!! h) (String.length (cell_text row h))
    else cw !!! h.
Proof.
  induction hs as [|h' hs IH] using rev_ind.
  - cbn [foldl]. destruct (decide (h ∈ [])) as [Hin | _]; [| reflexivity].
    apply elem_of_nil in Hin. destruct Hin.
  - rewrite foldl_snoc.
    destruct (decide (h' = h)) as [-> | Hne].
    + rewrite lookup_total_insert_eq, IH.
      rewrite (decide_True (P := h ∈ hs ++ [h]))
        by (apply elem_of_app; right; apply list_elem_of_singleton; reflexivity).
      unfold cell_text. destruct (decide (h ∈ hs)); lia.
    + rewrite lookup_total_insert_ne by exact Hne. rewrite IH.
      destruct (decide (h ∈ hs)) as [Hin | Hn].
      * rewrite (decide_True (P := h ∈ hs ++ [h']))
          by (apply elem_of_app; left; exact Hin).
        reflexivity.
      * rewrite (decide_False (P := h ∈ hs ++ [h'])); [reflexivity |].
        intros [H | H]%elem_of_app; [exact (Hn H) |].
        apply list_elem_of_singleton in H. congruence.
Qed.

Lemma widen_rows_from (cw : gmap string nat) rows h :
  In h headers ->
  foldl (widen_row headers) cw rows !!! h
  = foldr Nat.max (cw !!! h) (map (fun r => String.length (cell_text r h)) rows).
Proof.
  intros Hin. revert cw. induction rows as [|r rows IH]; intros cw; [reflexivity |].
  simpl. rewrite IH. unfold widen_row. rewrite widen_row_from.
  rewrite decide_True by (apply list_elem_of_In; exact Hin).
  generalize (map (fun r0 => String.length (cell_text r0 h)) rows) as ws.
  generalize (cw !!! h) as a. generalize (String.length (cell_text r h)) as x.
  intros x a ws. revert a. induction ws as [|w ws IHw]; intros a; simpl; [lia |].
  rewrite IHw. lia.
Qed.

Lemma col_widths_lookup rows h :
  In h headers -> col_widths headers rows !!! h = column_width rows h.
Proof.
  intros Hin. unfold col_widths, column_width.
  rewrite widen_rows_from by exact Hin.
  unfold init_widths. rewrite init_widths_from by exact Hin.
  rewrite upper_length. reflexivity.
Qed.
End Widths.

Lemma column_width_header rows h :
  (String.length (PyStr.upper h) <= column_width rows h)%nat.
Proof.
  unfold column_width. induction rows as [|r rows IH]; simpl; lia.
Qed.

Lemma column_width_cell rows h r :
  In r rows -> (String.length (cell_text r h) <= column_width rows h)%nat.
Proof.
  unfold column_width. induction rows as [|r' rows IH]; simpl; [intros [] |].
  intros [-> | Hin]; [lia | specialize (IH Hin); lia].
Qed.

Lemma format_table_lines rows include_score :
  format_table rows include_score =
  PyStr.join nl
    (header_line (headers_for include_score) rows
     :: separator_line (headers_for include_score) rows
     :: map (data_line (headers_for include_score) rows) rows).
Proof.
  unfold format_table, header_line, separator_line.
  generalize (headers_for include_score) as hs. intros hs. cbv zeta.
  change ([?a; ?b] ++ ?l) with (a :: b :: l).
  f_equal. f_equal; [| f_equal].
  - f_equal. apply map_ext_in. intros h Hh. rewrite col_widths_lookup by exact Hh.
    reflexivity.
  - f_equal. apply map_ext_in. intros h Hh. rewrite col_widths_lookup by exact Hh.
    reflexivity.
  - apply map_ext. intros r. unfold table_line, data_line. f_equal.
    apply map_ext_in. intros h Hh. rewrite col_widths_lookup by exact Hh.
    reflexivity.
Qed.

(** C8: the table renderer gives every column the maximum of the length of
    its uppercased header label and of the lengths of its stringified row
    values; it emits the uppercased header line, a separator line of dashes
    of each column's width, and one line per row with the values
    left-justified to the column width, the columns joined by two spaces.
    [--stack aztec --format table] prints exactly three lines (header,
    separator, one data row) with eight columns and no score column. *)
Theorem format_table_layout (rows : list (gmap string value)) (include_score : bool) :
  format_table rows include_score =
    PyStr.join nl
      (header_line (headers_for include_score) rows
       :: separator_line (headers_for include_score) rows
       :: map (data_line (headers_for include_score) rows) rows) /\
  Forall (fun h =>
            String.length (PyStr.ljust (PyStr.upper h) (column_width rows h))
            = column_width rows h)
         (headers_for include_score) /\
  Forall (fun r =>
            Forall (fun h =>
                      String.length (PyStr.ljust (cell_text r h) (column_width rows h))
                      = column_width rows h)
                   (headers_for include_score))
         rows /\
  main aztec_table_args = Ok (print (PyStr.join nl aztec_table_lines)) /\
  output_lines (print (PyStr.join nl aztec_table_lines)) = aztec_table_lines /\
  map table_columns (firstn 2 aztec_table_lines)
  = [map PyStr.upper FIELDS_ORDER;
     map (fun h => PyStr.repeat_char "-"%char
                     (column_width (build_rows [aztec] false) h)) FIELDS_ORDER].
Proof.
  split; [apply format_table_lines |].
  split.
  { apply List.Forall_forall. intros h _. apply ljust_length, column_width_header. }
  split.
  { apply List.Forall_forall. intros r Hr. apply List.Forall_forall. intros h _.
    apply ljust_length, column_width_cell, Hr. }
  repeat split; vm_compute; reflexivity.
Qed.

(** * The columns of the table and CSV renderers *)

Lemma format_csv_cells rows include_score :
  format_csv rows include_score =
  PyStr.join nl
    (PyStr.join "," (headers_for include_score)
     :: map (fun row => PyStr.join "," (map esc row))
            (cells (headers_for include_score) rows)).
Proof.
  unfold format_csv, cells. cbv zeta. f_equal. f_equal.
  rewrite map_map. apply map_ext. intros r. rewrite map_map. reflexivity.
Qed.

Lemma column_width_cells headers rows rows' h :
  In h headers -> cells headers rows = cells headers rows' ->
  column_width rows h = column_width rows' h.
Proof.
  intros Hin. unfold column_width, cells. revert rows'.
  induction rows as [|r rows IH]; intros [|r' rows'] H; try discriminate; [reflexivity |].
  simpl in H. injection H as Hr Hrows. simpl. rewrite (IH rows' Hrows).
  assert (forall hs, map (get_cell r) hs = map (get_cell r') hs -> In h hs ->
                     get_cell r h = get_cell r' h) as Hcell.
  { induction hs as [|h' hs IHh]; simpl; [intros _ [] |].
    intros [= H1 H2] [-> | Hh]; auto. }
  unfold cell_text. rewrite (Hcell headers Hr Hin). reflexivity.
Qed.

Lemma data_line_cells headers rows rows' r r' :
  cells headers rows = cells headers rows' ->
  map (get_cell r) headers = map (get_cell r') headers ->
  data_line headers rows r = data_line headers rows' r'.
Proof.
  intros Hrows Hr. unfold data_line. f_equal.
  assert (forall hs, (forall h, In h hs -> In h headers) ->
            map (get_cell r) hs = map (get_cell r') hs ->
            map (fun h => PyStr.ljust (cell_text r h) (column_width rows h)) hs
            = map (fun h => PyStr.ljust (cell_text r' h) (column_width rows' h)) hs) as H.
  { induction hs as [|h hs IH]; simpl; [reflexivity |].
    intros Hsub [= H1 H2]. rewrite IH by auto.
    unfold cell_text at 1 3. rewrite H1.
    rewrite (column_width_cells headers rows rows' h) by auto. reflexivity. }
  apply H; auto.
Qed.

Lemma format_table_cells rows rows' include_score :
  cells (headers_for include_score) rows = cells (headers_for include_score) rows' ->
  format_table rows include_score = format_table rows' include_score.
Proof.
  intros H. rewrite !format_table_lines.
  generalize dependent (headers_for include_score). intros hs H.
  f_equal. f_equal; [| f_equal].
  - unfold header_line. f_equal. apply map_ext_in. intros h Hh.
    rewrite (column_width_cells hs rows rows' h) by auto. reflexivity.
  - unfold separator_line. f_equal. apply map_ext_in. intros h Hh.
    rewrite (column_width_cells hs rows rows' h) by auto. reflexivity.
  - assert (forall rs rs', cells hs rs = cells hs rs' ->
              map (data_line hs rows) rs = map (data_line hs rows') rs') as Hm.
    { induction rs as [|r rs IH]; intros [|r' rs'] Hc; try discriminate; [reflexivity |].
      simpl in Hc. injection Hc as Hr Hrs. simpl.
      rewrite (IH rs' Hrs). f_equal. apply data_line_cells; assumption. }
    apply Hm, H.
Qed.

Lemma headers_no_description include_score :
  ~ In "description" (headers_for include_score).
Proof.
  destruct include_score; simpl; intros H;
    repeat (destruct H as [H | H]; [discriminate |]); exact H.
Qed.

Lemma build_row_description b d s h :
  h <> "description" ->
  get_cell (build_row b (with_description d s)) h = get_cell (build_row b s) h.
Proof.
  intros Hh. unfold get_cell, build_row. f_equal.
  change (score_stack (with_description d s)) with (score_stack s).
  assert (to_dict (with_description d s) !! h = to_dict s !! h) as Hd.
  { unfold to_dict. cbn [list_to_map foldr uncurry Datatypes.fst Datatypes.snd
                          key name family description privacy_level soundness_focus
                          performance_cost dev_complexity ecosystem_maturity
                          with_description].
    rewrite !lookup_insert.
    repeat (case_decide; [try reflexivity; congruence |]).
    reflexivity. }
  destruct b; [| exact Hd].
  rewrite !lookup_insert. case_decide; [reflexivity | exact Hd].
Qed.

Lemma cells_description (f : PrivacyStack -> string) stacks b1 b2 :
  cells (headers_for b2) (build_rows (map (fun s => with_description (f s) s) stacks) b1)
  = cells (headers_for b2) (build_rows stacks b1).
Proof.
  unfold cells, build_rows. rewrite !map_map. apply map_ext. intros s.
  apply map_ext_in. intros h Hh. apply build_row_description.
  intros ->. exact (headers_no_description b2 Hh).
Qed.

(** C9: over rows produced by [build_rows], the table and CSV renderers
    emit exactly the columns of [FIELDS_ORDER], plus [composite_score] when
    their flag is set: each line is made of the cells of those headers and
    of no other field of the row.  The [description] field is not among
    them, and whatever it holds leaves both outputs unchanged. *)
Theorem renderers_emit_field_order (stacks : list PrivacyStack)
    (built_with_score include_score : bool) (f : PrivacyStack -> string) :
  headers_for include_score
  = FIELDS_ORDER ++ (if include_score then ["composite_score"] else []) /\
  ~ In "description" (headers_for include_score) /\
  format_csv (build_rows stacks built_with_score) include_score =
    PyStr.join nl
      (PyStr.join "," (headers_for include_score)
       :: map (fun row => PyStr.join "," (map esc row))
              (cells (headers_for include_score) (build_rows stacks built_with_score))) /\
  format_table (build_rows stacks built_with_score) include_score =
    PyStr.join nl
      (header_line (headers_for include_score) (build_rows stacks built_with_score)
       :: separator_line (headers_for include_score) (build_rows stacks built_with_score)
       :: map (data_line (headers_for include_score) (build_rows stacks built_with_score))
              (build_rows stacks built_with_score)) /\
  format_csv
    (build_rows (map (fun s => with_description (f s) s) stacks) built_with_score)
    include_score
  = format_csv (build_rows stacks built_with_score) include_score /\
  format_table
    (build_rows (map (fun s => with_description (f s) s) stacks) built_with_score)
    include_score
  = format_table (build_rows stacks built_with_score) include_score.
Proof.
  split; [reflexivity |].
  split; [apply headers_no_description |].
  split; [apply format_csv_cells |].
  split; [apply format_table_lines |].
  split.
  - rewrite !format_csv_cells, cells_description. reflexivity.
  - apply format_table_cells, cells_description.
Qed.

(** * The score column of the rendered output *)

Lemma columns_as_expected_everywhere :
  forallb (fun st => forallb (fun fmt => forallb (fun inc =>
    forallb (fun sb => forallb (fun d =>
      columns_as_expected
        {| stack := st; format := fmt; include_score := inc;
           sort_by := sb; descending := d |})
    flags) sort_choices) flags) [Table; Csv]) stack_choices = true.
Proof. vm_compute. reflexivity. Qed.

Lemma flag_in_flags b : In b flags.
Proof. destruct b; simpl; auto. Qed.

Lemma valid_args_columns args :
  valid_args args -> format args <> Json_ -> columns_as_expected args = true.
Proof.
  destruct args as [st fmt inc sb d]. unfold valid_args. simpl.
  intros [Hst Hsb] Hfmt.
  pose proof columns_as_expected_everywhere as H.
  rewrite forallb_forall in H. specialize (H st Hst).
  rewrite forallb_forall in H. specialize (H fmt).
  rewrite forallb_forall in H. specialize (fun Hin => H Hin inc (flag_in_flags inc)).
  rewrite forallb_forall in H. specialize (fun Hin Hin' => H Hin sb Hin').
  rewrite forallb_forall in H. specialize (fun Hin Hin' => H Hin Hin' d (flag_in_flags d)).
  apply H.
  - destruct fmt; simpl; auto; contradiction.
  - destruct sb as [f|]; [right; apply in_map; exact Hsb | left; reflexivity].
Qed.

Lemma score_label_shown fmt b :
  fmt <> Json_ ->
  In (label fmt "composite_score") (map (label fmt) (headers_for b)) <-> b = true.
Proof.
  intros Hfmt. destruct fmt; [| | contradiction]; destruct b; simpl; split; intros H;
    try reflexivity; try discriminate; try tauto;
    repeat (destruct H as [H | H]; [discriminate |]); destruct H.
Qed.

Lemma effective_flag args :
  include_score args || sorts_by_score args = true <->
  include_score args = true \/ sort_by args = Some "composite_score".
Proof.
  unfold sorts_by_score. rewrite orb_true_iff.
  destruct (sort_by args) as [f|].
  - rewrite String.eqb_eq. split; intros [H | H]; auto; right; congruence.
  - split; intros [H | H]; auto; discriminate.
Qed.

Lemma main_rows_transient_score args :
  sorts_by_score args = true ->
  main_rows (with_include_score true args) = main_rows args.
Proof.
  intros Hs. unfold main_rows.
  change (stack (with_include_score true args)) with (stack args).
  change (sort_by (with_include_score true args)) with (sort_by args).
  change (descending (with_include_score true args)) with (descending args).
  change (include_score (with_include_score true args)) with true.
  change (sorts_by_score (with_include_score true args)) with (sorts_by_score args).
  rewrite Hs.
  destruct (select_stacks (stack args)) as [stacks | e] eqn:E; [| reflexivity].
  destruct (include_score args); [reflexivity |].
  apply select_stacks_catalog in E.
  cbn [mbind result_bind andb negb].
  rewrite (attach_scores_build_rows stacks E). reflexivity.
Qed.

Lemma main_transient_score args :
  sorts_by_score args = true -> main (with_include_score true args) = main args.
Proof.
  intros Hs. unfold main. rewrite (main_rows_transient_score args Hs).
  change (format (with_include_score true args)) with (format args).
  change (include_score (with_include_score true args)) with true.
  change (sorts_by_score (with_include_score true args)) with (sorts_by_score args).
  rewrite Hs. cbn [orb]. rewrite orb_true_r. reflexivity.
Qed.

(** * The JSON renderer *)

(** ** Code point order on strings *)

Lemma ltb_lt a b : String.ltb a b = true <-> String_as_OT.lt a b.
Proof.
  unfold String.ltb. rewrite <- String_as_OT.cmp_lt. unfold String_as_OT.cmp.
  destruct (String.compare a b); split; intros H; congruence.
Qed.

Lemma ltb_irrefl a : String.ltb a a = false.
Proof.
  destruct (String.ltb a a) eqn:E; [| reflexivity].
  apply ltb_lt in E. exfalso. exact (String_as_OT.lt_not_eq _ _ E eq_refl).
Qed.

Lemma ltb_trans a b c :
  String.ltb a b = true -> String.ltb b c = true -> String.ltb a c = true.
Proof.
  rewrite !ltb_lt. apply String_as_OT.lt_trans.
Qed.

Lemma leb_ltb a b : String.leb a b = negb (String.ltb b a).
Proof.
  unfold String.leb, String.ltb. rewrite (String.compare_antisym b a).
  destruct (String.compare a b); reflexivity.
Qed.

Lemma ltb_trichotomy a b :
  String.ltb a b = true \/ a = b \/ String.ltb b a = true.
Proof.
  unfold String.ltb. rewrite (String.compare_antisym b a).
  destruct (String.compare a b) eqn:E; simpl; auto.
  right; left. apply String.compare_eq_iff, E.
Qed.

Lemma leb_trans a b c :
  String.leb a b = true -> String.leb b c = true -> String.leb a c = true.
Proof.
  rewrite !leb_ltb, !negb_true_iff. intros Hba Hcb.
  destruct (String.ltb c a) eqn:Hca; [| reflexivity].
  destruct (ltb_trichotomy a b) as [Hab | [-> | Hba']]; [| congruence | congruence].
  pose proof (ltb_trans c a b Hca Hab). congruence.
Qed.

#[global] Instance item_le_total : Total Json.item_le.
Proof. intros a b. apply String.leb_total. Qed.

#[global] Instance item_le_trans : Transitive Json.item_le.
Proof. intros a b c. apply leb_trans. Qed.

Lemma sorted_items_perm (row : gmap string value) :
  Json.sorted_items row ≡ₚ map_to_list row.
Proof. apply merge_sort_Permutation. Qed.

Lemma strictly_sorted_keys (l : list (string * value)) :
  StronglySorted Json.item_le l -> NoDup (map fst l) ->
  StronglySorted str_lt (map fst l).
Proof.
  induction 1 as [|kv l Hl IH Hall]; intros Hnd; simpl; [constructor |].
  apply NoDup_cons in Hnd as [Hnotin Hnd].
  constructor; [apply IH, Hnd |].
  apply List.Forall_forall. intros k Hk.
  apply in_map_iff in Hk as (kv' & <- & Hin).
  rewrite List.Forall_forall in Hall. specialize (Hall kv' Hin).
  unfold Json.item_le in Hall. unfold str_lt.
  destruct (ltb_trichotomy kv.1 kv'.1) as [Hlt | [Heq | Hgt]]; [exact Hlt | |].
  - exfalso. apply Hnotin. rewrite Heq. apply list_elem_of_In, in_map, Hin.
  - rewrite leb_ltb, Hgt in Hall. discriminate.
Qed.

Lemma sorted_items_keys (row : gmap string value) :
  StronglySorted str_lt (map fst (Json.sorted_items row)).
Proof.
  apply strictly_sorted_keys.
  - apply StronglySorted_merge_sort; apply _.
  - change (NoDup ((Json.sorted_items row).*1)).
    rewrite sorted_items_perm. apply NoDup_fst_map_to_list.
Qed.

Lemma append_assoc a b c : (a +:+ b) +:+ c = a +:+ (b +:+ c).
Proof.
  induction a as [|x a IH]; [reflexivity |].
  change (String x ((a +:+ b) +:+ c) = String x (a +:+ (b +:+ c))).
  rewrite IH. reflexivity.
Qed.

Lemma join_cons2 sep x y l :
  PyStr.join sep (x :: y :: l) = x +:+ sep +:+ PyStr.join sep (y :: l).
Proof. reflexivity. Qed.

Lemma join_indented level xs :
  xs <> [] ->
  PyStr.repeat_char " "%char (2 * level)
  +:+ PyStr.join ("," +:+ Json.newline_indent level) xs
  = PyStr.join ("," +:+ nl) (map (JsonSpec.indent level) xs).
Proof.
  induction xs as [|x xs IH]; intros Hne; [congruence |].
  destruct xs as [|y xs]; [reflexivity |].
  change (map (JsonSpec.indent level) (x :: y :: xs))
    with (JsonSpec.indent level x :: map (JsonSpec.indent level) (y :: xs)).
  remember (y :: xs) as ys eqn:Hys.
  assert (ys <> []) as Hys' by (subst; discriminate).
  specialize (IH Hys'). subst ys.
  change (map (JsonSpec.indent level) (y :: xs))
    with (JsonSpec.indent level y :: map (JsonSpec.indent level) xs) in *.
  rewrite !join_cons2. rewrite <- IH.
  unfold JsonSpec.indent, Json.newline_indent.
  rewrite !append_assoc. reflexivity.
Qed.

Lemma block_layout opening closing level xs :
  xs <> [] ->
  opening +:+ Json.newline_indent (S level)
  +:+ PyStr.join ("," +:+ Json.newline_indent (S level)) xs
  +:+ Json.newline_indent level +:+ closing
  = JsonSpec.block opening closing level xs.
Proof.
  intros Hne. unfold JsonSpec.block. destruct xs as [|x xs]; [congruence |].
  rewrite <- (join_indented (S level) (x :: xs) Hne).
  unfold Json.newline_indent, JsonSpec.indent. rewrite !append_assoc. reflexivity.
Qed.

Lemma encode_dict_layout level row :
  Json.encode_dict level row = JsonSpec.object_text level (members_of row).
Proof.
  unfold Json.encode_dict, JsonSpec.object_text, members_of.
  rewrite map_map.
  change (map (fun x => JsonSpec.member (Json.escape x.1, Json.encode_value x.2))
              (Json.sorted_items row))
    with (map Json.encode_item (Json.sorted_items row)).
  destruct (Json.sorted_items row) as [|kv items] eqn:E; [reflexivity |].
  apply block_layout. discriminate.
Qed.

Lemma dumps_layout rows :
  Json.dumps rows = JsonSpec.array_text (map members_of rows).
Proof.
  unfold Json.dumps, JsonSpec.array_text. rewrite map_map.
  destruct rows as [|r rows]; [reflexivity |].
  rewrite (map_ext _ _ (encode_dict_layout 1)).
  apply block_layout. discriminate.
Qed.

(** C3, the claim as stated, fails: the objects printed for
    [--stack all --format json --include-score] have ten keys each, the
    nine fields of the record and [composite_score], not nine. *)
Lemma json_all_objects_have_ten_keys :
  exists rows,
    main_rows json_all_args = Ok rows /\
    main json_all_args = Ok (print (Json.dumps rows)) /\
    map (fun r => length (Json.sorted_items r)) rows = [10; 10; 10]%nat /\
    ~ Forall (fun r => length (Json.sorted_items r) = 9%nat) rows.
Proof.
  exists (build_rows [aztec; zama; soundness] true).
  split; [reflexivity |]. split; [reflexivity |].
  assert (map (fun r => length (Json.sorted_items r))
              (build_rows [aztec; zama; soundness] true) = [10; 10; 10]%nat) as E
    by (vm_compute; reflexivity).
  split; [exact E |].
  intros H. apply Forall_inv in H.
  change (nth 0 (map (fun r => length (Json.sorted_items r))
                     (build_rows [aztec; zama; soundness] true)) 0%nat = 9%nat) in H.
  rewrite E in H. discriminate.
Qed.

(** C3 (amended): the JSON output is the post-sort row list written as an
    array of objects, one per row and in row order, with two spaces of
    indentation per level and the keys of each object in strictly
    increasing alphabetical order, every item of the row appearing once;
    for [--stack all --format json --include-score] the output is an
    array of exactly three objects, each with exactly ten keys. *)
Theorem json_output_layout (rows : list (gmap string value))
    (st : string) (inc : bool) (sb : option string) (d : bool) :
  Json.dumps rows = JsonSpec.array_text (map members_of rows) /\
  Forall (fun r =>
            StronglySorted str_lt (map fst (Json.sorted_items r)) /\
            Json.sorted_items r ≡ₚ map_to_list r /\
            map fst (members_of r) = map Json.escape (map fst (Json.sorted_items r)))
         rows /\
  main {| stack := st; format := Json_; include_score := inc;
          sort_by := sb; descending := d |}
  = (rows' ← main_rows {| stack := st; format := Json_; include_score := inc;
                          sort_by := sb; descending := d |};
     Ok (print (Json.dumps rows'))) /\
  main json_all_args = Ok (print (JsonSpec.array_text catalog_json)) /\
  map (fun o => length o) catalog_json = [10; 10; 10]%nat.
Proof.
  split; [apply dumps_layout |].
  split.
  { apply List.Forall_forall. intros r _.
    split; [apply sorted_items_keys |]. split; [apply sorted_items_perm |].
    unfold members_of. rewrite !map_map. reflexivity. }
  split; [reflexivity |].
  split; vm_compute; reflexivity.
Qed.

(** * The sorter on orderable keys *)

(** ** The order of numbers *)

Lemma dy_ltb_scaled m1 e1 m2 e2 E :
  E <= e1 -> E <= e2 ->
  dy_ltb m1 e1 m2 e2 = (m1 * 2 ^ (e1 - E) <? m2 * 2 ^ (e2 - E)).
Proof.
  intros H1 H2. unfold dy_ltb.
  set (e := Z.min e1 e2).
  assert (E <= e) as He by (unfold e; lia).
  assert (e <= e1 /\ e <= e2) as [He1 He2] by (unfold e; lia).
  replace (e1 - E) with ((e1 - e) + (e - E)) by lia.
  replace (e2 - E) with ((e2 - e) + (e - E)) by lia.
  rewrite !Z.pow_add_r by lia.
  assert (0 < 2 ^ (e - E)) as Hpos by (apply Z.pow_pos_nonneg; lia).
  rewrite !Z.mul_assoc.
  destruct (Z.ltb_spec (m1 * 2 ^ (e1 - e)) (m2 * 2 ^ (e2 - e))) as [Hlt | Hge];
    symmetry.
  - apply Z.ltb_lt. apply Z.mul_lt_mono_pos_r; assumption.
  - apply Z.ltb_ge. apply Z.mul_le_mono_nonneg_r; lia.
Qed.

Lemma num_ltb_asym a b : num_ltb a b = true -> num_ltb b a = false.
Proof.
  destruct a as [| |m1 e1|], b as [| |m2 e2|]; simpl; try congruence.
  rewrite (dy_ltb_scaled m1 e1 m2 e2 (Z.min e1 e2)) by lia.
  rewrite (dy_ltb_scaled m2 e2 m1 e1 (Z.min e1 e2)) by lia.
  intros H. apply Z.ltb_lt in H. apply Z.ltb_ge. lia.
Qed.

Lemma num_ltb_le_trans a b c :
  a <> NaN -> b <> NaN -> c <> NaN ->
  num_ltb b a = false -> num_ltb c b = false -> num_ltb c a = false.
Proof.
  destruct a as [| |m1 e1|], b as [| |m2 e2|], c as [| |m3 e3|]; simpl;
    try congruence.
  intros _ _ _.
  set (E := Z.min e1 (Z.min e2 e3)).
  rewrite (dy_ltb_scaled m2 e2 m1 e1 E) by (unfold E; lia).
  rewrite (dy_ltb_scaled m3 e3 m2 e2 E) by (unfold E; lia).
  rewrite (dy_ltb_scaled m3 e3 m1 e1 E) by (unfold E; lia).
  rewrite !Z.ltb_ge. lia.
Qed.

(** ** Stable insertion sort over a domain of comparable keys *)
Section StableSort.
Context {A : Type} (key : A -> value).

(** The domain: the elements whose keys [<] orders totally. *)
Variable P : A -> Prop.

Hypothesis P_lt : forall a b, P a -> P b -> value_lt (key a) (key b) = Ok (ltb key a b).
Hypothesis P_asym : forall a b, P a -> P b -> ltb key a b = true -> ltb key b a = false.
Hypothesis P_trans : forall a b c, P a -> P b -> P c -> le key a b -> le key b c -> le key a c.

Lemma eqvb_not_lt a x y :
  P a -> P x -> P y -> eqvb key a x = true -> eqvb key a y = true -> ltb key y x = false.
Proof.
  unfold eqvb. rewrite !andb_true_iff, !negb_true_iff.
  intros Ha Hx Hy [Hax Hxa] [Hay Hya].
  (* x <= a and a <= y *)
  apply (P_trans x a y Hx Ha Hy); assumption.
Qed.

Lemma filter_swap_exclusive a x y l :
  P a -> P x -> P y -> ltb key y x = true ->
  List.filter (eqvb key a) (y :: x :: l) = List.filter (eqvb key a) (x :: y :: l).
Proof.
  intros Ha Hx Hy Hlt. simpl.
  destruct (eqvb key a y) eqn:Ey, (eqvb key a x) eqn:Ex; try reflexivity.
  pose proof (eqvb_not_lt a x y Ha Hx Hy Ex Ey). congruence.
Qed.

Lemma insert_sorted_spec x l :
  P x -> Forall P l -> StronglySorted (le key) l ->
  exists out,
    insert_sorted key x l = Ok out /\
    Permutation (x :: l) out /\
    Forall P out /\
    StronglySorted (le key) out /\
    forall a, P a -> List.filter (eqvb key a) out = List.filter (eqvb key a) (x :: l).
Proof.
  intros Hx. induction l as [|y l IH]; intros HP Hs.
  - exists [x]. split; [reflexivity |]. split; [reflexivity |].
    split; [constructor; [exact Hx | constructor] |].
    split; [constructor; constructor | reflexivity].
  - apply Forall_cons in HP as [Hy HP].
    apply StronglySorted_inv in Hs as [Hs Hall].
    cbn [insert_sorted]. rewrite (P_lt y x Hy Hx).
    destruct (ltb key y x) eqn:Hyx; cbn [mbind result_bind].
    + destruct (IH HP Hs) as (out & Hout & Hperm & HPout & Hsorted & Hstable).
      rewrite Hout. exists (y :: out). split; [reflexivity |].
      split; [rewrite perm_swap; constructor; exact Hperm |].
      split; [constructor; assumption |].
      split.
      * constructor; [exact Hsorted |].
        apply (Permutation_Forall Hperm). constructor; [| exact Hall].
        exact (P_asym y x Hy Hx Hyx).
      * intros a Ha.
        rewrite <- (filter_swap_exclusive a x y l Ha Hx Hy Hyx).
        cbn [List.filter]. rewrite (Hstable a Ha). reflexivity.
    + exists (x :: y :: l). split; [reflexivity |].
      split; [reflexivity |].
      split; [constructor; [exact Hx | constructor; assumption] |].
      split; [| reflexivity].
      constructor; [constructor; assumption |].
      constructor; [exact Hyx |].
      rewrite List.Forall_forall in Hall, HP. apply List.Forall_forall. intros z Hz.
      apply (P_trans x y z Hx Hy (HP z Hz) Hyx (Hall z Hz)).
Qed.

Lemma sort_ascending_spec l :
  Forall P l ->
  exists out,
    sort_ascending key l = Ok out /\
    Permutation l out /\
    Forall P out /\
    StronglySorted (le key) out /\
    forall a, P a -> List.filter (eqvb key a) out = List.filter (eqvb key a) l.
Proof.
  induction l as [|x l IH]; intros HP.
  - exists []. split; [reflexivity |]. split; [constructor |].
    split; [constructor |]. split; [constructor | reflexivity].
  - apply Forall_cons in HP as [Hx HP].
    destruct (IH HP) as (out & Hout & Hperm & HPout & Hsorted & Hstable).
    destruct (insert_sorted_spec x out Hx HPout Hsorted)
      as (out' & Hout' & Hperm' & HPout' & Hsorted' & Hstable').
    exists out'. cbn [sort_ascending]. rewrite Hout. cbn [mbind result_bind].
    split; [exact Hout' |].
    split; [rewrite <- Hperm'; constructor; exact Hperm |].
    split; [exact HPout' |]. split; [exact Hsorted' |].
    intros a Ha. rewrite (Hstable' a Ha). cbn [List.filter].
    rewrite (Hstable a Ha). reflexivity.
Qed.

Lemma StronglySorted_rev (R : A -> A -> Prop) l :
  StronglySorted R l -> StronglySorted (fun a b => R b a) (rev l).
Proof.
  induction 1 as [|x l Hl IH Hall]; simpl; [constructor |].
  apply StronglySorted_app_2; [| exact IH | repeat constructor].
  intros a b Ha Hb. apply list_elem_of_singleton in Hb as ->.
  apply list_elem_of_In, in_rev in Ha.
  rewrite List.Forall_forall in Hall. exact (Hall a Ha).
Qed.

(** [sorted] on a list of the domain: the result is a permutation, ordered
    in the requested direction, with equal keys in their original order. *)
Lemma py_sorted_spec l reverse :
  Forall P l ->
  exists out,
    py_sorted key l reverse = Ok out /\
    Permutation l out /\
    StronglySorted (fun a b => if reverse then le key b a else le key a b) out /\
    forall a, P a -> List.filter (eqvb key a) out = List.filter (eqvb key a) l.
Proof.
  intros HP. unfold py_sorted. destruct reverse.
  - assert (Forall P (rev l)) as HP'.
    { apply List.Forall_forall. intros x Hx. apply in_rev in Hx.
      rewrite List.Forall_forall in HP. auto. }
    destruct (sort_ascending_spec (rev l) HP')
      as (out & Hout & Hperm & _ & Hsorted & Hstable).
    exists (rev out). rewrite Hout. split; [reflexivity |].
    split; [rewrite <- (Permutation_rev out), <- Hperm; apply Permutation_rev |].
    split; [apply StronglySorted_rev, Hsorted |].
    intros a Ha. rewrite List.filter_rev, (Hstable a Ha), List.filter_rev, rev_involutive.
    reflexivity.
  - destruct (sort_ascending_spec l HP) as (out & Hout & Hperm & _ & Hsorted & Hstable).
    exists out. auto.
Qed.
End StableSort.

(** ** [sort_rows] *)

Section SortRows.
Variable f : string.
Variable P : gmap string value -> Prop.
Hypothesis P_lt :
  forall a b, P a -> P b ->
    value_lt (sort_key f a) (sort_key f b) = Ok (ltb (sort_key f) a b).
Hypothesis P_asym :
  forall a b, P a -> P b ->
    ltb (sort_key f) a b = true -> ltb (sort_key f) b a = false.
Hypothesis P_trans :
  forall a b c, P a -> P b -> P c ->
    le (sort_key f) a b -> le (sort_key f) b c -> le (sort_key f) a c.

Lemma key_le_le a b : P a -> P b ->
  le (sort_key f) a b -> key_le (sort_key f a) (sort_key f b).
Proof.
  intros Ha Hb H. unfold key_le. rewrite (P_lt b a Hb Ha). f_equal. exact H.
Qed.

Lemma same_key_eqvb a b : P a -> P b ->
  eqvb (sort_key f) a b = same_key (sort_key f a) (sort_key f b).
Proof.
  intros Ha Hb. unfold same_key, eqvb.
  rewrite (P_lt a b Ha Hb), (P_lt b a Hb Ha).
  destruct (ltb (sort_key f) a b), (ltb (sort_key f) b a); reflexivity.
Qed.

Lemma StronglySorted_on (R R' : relation (gmap string value)) l :
  (forall a b, P a -> P b -> R a b -> R' a b) ->
  Forall P l -> StronglySorted R l -> StronglySorted R' l.
Proof.
  intros HR HP Hs. induction Hs as [|x l Hl IH Hall]; [constructor |].
  apply Forall_cons in HP as [Hx HP].
  constructor; [apply IH, HP |].
  rewrite List.Forall_forall in Hall, HP. apply List.Forall_forall.
  intros y Hy. apply HR; auto.
Qed.

Lemma filter_on (g h : gmap string value -> bool) l :
  Forall P l -> (forall x, P x -> g x = h x) -> List.filter g l = List.filter h l.
Proof.
  intros HP Hgh. apply List.filter_ext_in. intros x Hx.
  rewrite List.Forall_forall in HP. auto.
Qed.

Lemma sort_rows_on rows descending :
  f <> "" -> Forall P rows ->
  exists out,
    sort_rows rows (Some f) descending = Ok out /\
    Permutation rows out /\
    StronglySorted
      (fun a b => if descending then key_le (sort_key f b) (sort_key f a)
                  else key_le (sort_key f a) (sort_key f b)) out /\
    forall r, In r rows ->
      List.filter (fun x => same_key (sort_key f r) (sort_key f x)) out
      = List.filter (fun x => same_key (sort_key f r) (sort_key f x)) rows.
Proof.
  intros Hf HP. unfold sort_rows.
  apply String.eqb_neq in Hf. rewrite Hf.
  destruct (py_sorted_spec (sort_key f) P P_lt P_asym P_trans rows descending HP)
    as (out & Hout & Hperm & Hsorted & Hstable).
  assert (Forall P out) as HPout by exact (Permutation_Forall Hperm HP).
  exists out. split; [exact Hout |]. split; [exact Hperm |]. split.
  - revert Hsorted. apply StronglySorted_on; [| exact HPout].
    intros a b Ha Hb. destruct descending; apply key_le_le; assumption.
  - intros r Hr.
    assert (P r) as HPr by (rewrite List.Forall_forall in HP; auto).
    rewrite <- (filter_on (eqvb (sort_key f) r) _ out HPout
                  (fun x Hx => same_key_eqvb r x HPr Hx)).
    rewrite <- (filter_on (eqvb (sort_key f) r) _ rows HP
                  (fun x Hx => same_key_eqvb r x HPr Hx)).
    apply Hstable, HPr.
Qed.
End SortRows.

Lemma str_keyed_lt f a b :
  str_keyed f a -> str_keyed f b ->
  value_lt (sort_key f a) (sort_key f b) = Ok (ltb (sort_key f) a b).
Proof.
  intros [s Hs] [t Ht]. unfold value_lt, ltb. rewrite Hs, Ht. reflexivity.
Qed.

Lemma str_keyed_asym f a b :
  str_keyed f a -> str_keyed f b ->
  ltb (sort_key f) a b = true -> ltb (sort_key f) b a = false.
Proof.
  intros [s Hs] [t Ht]. unfold ltb. rewrite Hs, Ht. simpl. intros H.
  destruct (String.ltb t s) eqn:E; [| reflexivity].
  pose proof (ltb_trans s t s H E) as Hss. rewrite ltb_irrefl in Hss. discriminate.
Qed.

Lemma str_keyed_trans f a b c :
  str_keyed f a -> str_keyed f b -> str_keyed f c ->
  le (sort_key f) a b -> le (sort_key f) b c -> le (sort_key f) a c.
Proof.
  intros [s Hs] [t Ht] [u Hu]. unfold le, ltb. rewrite Hs, Ht, Hu. simpl.
  intros H1 H2.
  assert (String.leb s u = true) as H.
  { apply (leb_trans s t u); rewrite leb_ltb; [rewrite H1 | rewrite H2]; reflexivity. }
  rewrite leb_ltb in H. apply negb_true_iff in H. exact H.
Qed.

Lemma num_keyed_lt f a b :
  num_keyed f a -> num_keyed f b ->
  value_lt (sort_key f a) (sort_key f b) = Ok (ltb (sort_key f) a b).
Proof.
  intros (x & Hx & _) (y & Hy & _). unfold value_lt, ltb. rewrite Hx, Hy. reflexivity.
Qed.

Lemma num_keyed_asym f a b :
  num_keyed f a -> num_keyed f b ->
  ltb (sort_key f) a b = true -> ltb (sort_key f) b a = false.
Proof.
  intros (x & Hx & _) (y & Hy & _). unfold ltb. rewrite Hx, Hy. simpl.
  apply num_ltb_asym.
Qed.

Lemma num_keyed_trans f a b c :
  num_keyed f a -> num_keyed f b -> num_keyed f c ->
  le (sort_key f) a b -> le (sort_key f) b c -> le (sort_key f) a c.
Proof.
  intros (x & Hx & Hxn) (y & Hy & Hyn) (z & Hz & Hzn).
  unfold le, ltb. rewrite Hx, Hy, Hz. simpl.
  apply num_ltb_le_trans; assumption.
Qed.

(** C5, the claim as stated, fails: of two rows, one with a [name] and one
    without, the second is keyed by the number zero, and comparing a string
    with a number raises [TypeError]; no sorted list is returned. *)
Lemma sort_rows_mixed_keys_raise :
  sort_rows [{["name" := VStr "a"]}; ∅] (Some "name") false = Raise TypeError /\
  sort_key "name" ∅ = VInt 0.
Proof. split; vm_compute; reflexivity. Qed.

(** C5 (amended): for a non-empty [sort_by] and rows whose keys
    [row.get(sort_by, 0)] are all strings or all numbers other than NaN (a
    row missing the field is keyed by the number zero), [sort_rows] returns
    a permutation of the rows that is ordered by that key, ascending when
    [descending] is false and descending when it is true, and stable: rows
    with equal keys keep their original relative order. *)
Theorem sort_rows_stable (rows : list (gmap string value)) (f : string)
    (descending : bool) (Hf : f <> "") (Hkeys : orderable f rows) :
  exists out,
    sort_rows rows (Some f) descending = Ok out /\
    Permutation rows out /\
    StronglySorted
      (fun a b => if descending then key_le (sort_key f b) (sort_key f a)
                  else key_le (sort_key f a) (sort_key f b)) out /\
    (forall r, In r rows ->
       List.filter (fun x => same_key (sort_key f r) (sort_key f x)) out
       = List.filter (fun x => same_key (sort_key f r) (sort_key f x)) rows) /\
    (forall r, r !! f = None -> sort_key f r = VInt 0).
Proof.
  assert (forall r : gmap string value, r !! f = None -> sort_key f r = VInt 0) as Hzero.
  { intros r Hr. unfold sort_key. rewrite Hr. reflexivity. }
  destruct Hkeys as [Hstr | Hnum].
  - destruct (sort_rows_on f (str_keyed f) (str_keyed_lt f) (str_keyed_asym f)
                (str_keyed_trans f) rows descending Hf Hstr)
      as (out & H1 & H2 & H3 & H4).
    exists out. auto.
  - destruct (sort_rows_on f (num_keyed f) (num_keyed_lt f) (num_keyed_asym f)
                (num_keyed_trans f) rows descending Hf Hnum)
      as (out & H1 & H2 & H3 & H4).
    exists out. auto.
Qed.

Example sort_rows_ties_ascending :
  sort_rows tie_rows (Some "k") false
  = Ok [tagged None "d"; tagged (Some (VInt 1)) "b";
        tagged (Some (VInt 2)) "a"; tagged (Some (VFloat (PyFloat.of_int 2))) "c"].
Proof. vm_compute. reflexivity. Qed.

Example sort_rows_ties_descending :
  sort_rows tie_rows (Some "k") true
  = Ok [tagged (Some (VInt 2)) "a"; tagged (Some (VFloat (PyFloat.of_int 2))) "c";
        tagged (Some (VInt 1)) "b"; tagged None "d"].
Proof. vm_compute. reflexivity. Qed.

Lemma sort_rows_stable_witness :
  exists out,
    sort_rows tie_rows (Some "k") true = Ok out /\
    Permutation tie_rows out /\
    StronglySorted (fun a b => key_le (sort_key "k" b) (sort_key "k" a)) out /\
    (forall r, In r tie_rows ->
       List.filter (fun x => same_key (sort_key "k" r) (sort_key "k" x)) out
       = List.filter (fun x => same_key (sort_key "k" r) (sort_key "k" x)) tie_rows) /\
    (forall r : gmap string value, r !! "k" = None -> sort_key "k" r = VInt 0).
Proof.
  apply (sort_rows_stable tie_rows "k" true).
  - discriminate.
  - right. repeat constructor; (eexists; split; [reflexivity | discriminate]).
Defined.

(** * Further properties of the catalog lookups *)

Lemma dict_get_missing {V} (d : list (string * V)) k :
  ~ In k (map fst d) -> dict_get d k = Raise KeyError.
Proof.
  induction d as [|[k' v] d IH]; simpl; [reflexivity |].
  intros H. destruct (String.eqb k k') eqn:E.
  - apply String.eqb_eq in E. exfalso. apply H. left. congruence.
  - apply IH. intros Hin. apply H. right. exact Hin.
Qed.

Lemma dict_get_raises_KeyError {V} (d : list (string * V)) k e :
  dict_get d k = Raise e -> e = KeyError /\ ~ In k (map fst d).
Proof.
  induction d as [|[k' v] d IH]; simpl.
  - intros [= <-]. split; [reflexivity | intros []].
  - destruct (String.eqb k k') eqn:E; [discriminate |].
    intros H. destruct (IH H) as [-> Hn]. split; [reflexivity |].
    apply String.eqb_neq in E. intros [Heq | Hin]; [congruence | exact (Hn Hin)].
Qed.

(** X1: [select_stacks] returns the whole catalog in declaration order for
    ["all"], the one stack stored under a catalog key (whose [key] field is
    that key) for a key of [list_keys], and raises [KeyError] for every
    other string. *)
Theorem select_stacks_cases (k : string) :
  (k = "all" -> select_stacks k = Ok [aztec; zama; soundness]) /\
  (k <> "all" -> In k list_keys ->
   exists s, select_stacks k = Ok [s] /\ key s = k /\ In (k, s) STACKS) /\
  (k <> "all" -> ~ In k list_keys -> select_stacks k = Raise KeyError).
Proof.
  split; [intros ->; reflexivity |].
  split.
  - intros Hk Hin. unfold select_stacks.
    apply String.eqb_neq in Hk. rewrite Hk.
    destruct (dict_get STACKS k) as [s | e] eqn:E.
    + exists s. split; [reflexivity |].
      apply dict_get_In in E. split; [| exact E].
      simpl in E. destruct E as [E | [E | [E | []]]]; injection E as <- <-; reflexivity.
    + apply dict_get_raises_KeyError in E as [_ Hn]. contradiction.
  - intros Hk Hn. unfold select_stacks.
    apply String.eqb_neq in Hk. rewrite Hk.
    rewrite (dict_get_missing STACKS k Hn). reflexivity.
Qed.

Lemma select_stacks_cases_witness :
  (exists s, select_stacks "zama" = Ok [s] /\ key s = "zama" /\ In ("zama", s) STACKS) /\
  select_stacks "monero" = Raise KeyError.
Proof.
  split.
  - apply (proj1 (proj2 (select_stacks_cases "zama"))); [discriminate |].
    right; left; reflexivity.
  - apply (proj2 (proj2 (select_stacks_cases "monero"))); [discriminate |].
    intros [H | [H | [H | []]]]; discriminate.
Defined.

(** X2: the loop body of [main] that attaches a score succeeds exactly on
    rows whose [key] is a string stored in the catalog; it then sets
    [composite_score] to the score of the catalog record of that key,
    whatever the other fields of the row hold, and leaves every other field
    as it was.  On any other row it raises [KeyError]. *)
Theorem attach_score_cases (r : gmap string value) :
  (forall r', attach_score r = Ok r' ->
     exists k s,
       r !! "key" = Some (VStr k) /\ In (k, s) STACKS /\
       r' !! "composite_score" = Some (VFloat (score_stack s)) /\
       forall h, h <> "composite_score" -> r' !! h = r !! h) /\
  ((forall k, r !! "key" = Some (VStr k) -> ~ In k list_keys) ->
   attach_score r = Raise KeyError).
Proof.
  unfold attach_score. split.
  - intros r' H.
    destruct (r !! "key") as [[k | n | x] |] eqn:Ek; try discriminate.
    destruct (dict_get STACKS k) as [s | e] eqn:Es; [| discriminate].
    injection H as <-. exists k, s.
    split; [reflexivity |]. split; [apply dict_get_In, Es |].
    split; [apply lookup_insert_eq |].
    intros h Hh. apply lookup_insert_ne. congruence.
  - intros H.
    destruct (r !! "key") as [[k | n | x] |] eqn:Ek; try reflexivity.
    rewrite (dict_get_missing STACKS k (H k eq_refl)). reflexivity.
Qed.

Lemma attach_score_cases_witness :
  attach_score {["name" := VStr "nobody"]} = Raise KeyError /\
  exists k s,
    ({["key" := VStr "zama"; "privacy_level" := VInt 1]} : gmap string value) !! "key"
      = Some (VStr k) /\
    In (k, s) STACKS.
Proof.
  split.
  - apply (proj2 (attach_score_cases {["name" := VStr "nobody"]})).
    intros k Hk. vm_compute in Hk. discriminate.
  - destruct (proj1 (attach_score_cases
                       {["key" := VStr "zama"; "privacy_level" := VInt 1]})
                    (<["composite_score" := VFloat (score_stack zama)]>
                       {["key" := VStr "zama"; "privacy_level" := VInt 1]}))
      as (k & s & Hk & Hs & _).
    + reflexivity.
    + exists k, s. split; assumption.
Defined.

(** * Rows determine their stacks *)

(** X3: a row built by [build_rows] holds every field of its stack: two
    stacks with the same row are the same record, with or without the
    score. *)
Theorem build_row_injective (b b' : bool) (s s' : PrivacyStack) :
  build_row b s = build_row b' s' -> s = s'.
Proof.
  intros H.
  destruct (build_row_spec b s) as (_ & K1 & K2 & K3 & K4 & K5 & K6 & K7 & K8 & K9 & _).
  destruct (build_row_spec b' s') as (_ & L1 & L2 & L3 & L4 & L5 & L6 & L7 & L8 & L9 & _).
  rewrite H in K1, K2, K3, K4, K5, K6, K7, K8, K9.
  destruct s, s'. simpl in *. congruence.
Qed.

Lemma build_row_injective_witness :
  with_description "x" aztec = with_description "x" aztec.
Proof.
  apply (build_row_injective true true). reflexivity.
Defined.

(** * When [sorted] raises, and what sorting twice does *)

Lemma value_lt_same_kind x y :
  same_kind x y = true -> exists c, value_lt x y = Ok c.
Proof.
  unfold same_kind, value_lt. destruct (kind_of x), (kind_of y); try discriminate; eauto.
Qed.

Lemma value_lt_other_kind x y :
  same_kind x y = false -> value_lt x y = Raise TypeError.
Proof.
  unfold same_kind, value_lt. destruct (kind_of x), (kind_of y); try discriminate; reflexivity.
Qed.

Lemma same_kind_sym x y : same_kind x y = same_kind y x.
Proof. unfold same_kind. destruct (kind_of x), (kind_of y); reflexivity. Qed.

Lemma same_kind_trans x y z :
  same_kind x y = true -> same_kind y z = true -> same_kind x z = true.
Proof.
  unfold same_kind. destruct (kind_of x), (kind_of y), (kind_of z);
    try discriminate; reflexivity.
Qed.

Section SortOutcome.
Context {A : Type} (key : A -> value).

Lemma insert_sorted_outcome x l :
  match insert_sorted key x l with
  | Ok out => Permutation (x :: l) out
  | Raise e => e = TypeError
  end.
Proof.
  induction l as [|y l IH]; cbn [insert_sorted]; [reflexivity |].
  destruct (same_kind (key y) (key x)) eqn:K.
  - destruct (value_lt_same_kind _ _ K) as [c Hc]. rewrite Hc.
    cbn [mbind result_bind]. destruct c; [| reflexivity].
    destruct (insert_sorted key x l) as [out | e]; cbn [mbind result_bind];
      [| exact IH].
    rewrite perm_swap. constructor. exact IH.
  - rewrite (value_lt_other_kind _ _ K). reflexivity.
Qed.

Lemma sort_ascending_outcome l :
  match sort_ascending key l with
  | Ok out => Permutation l out
  | Raise e => e = TypeError
  end.
Proof.
  induction l as [|x l IH]; cbn [sort_ascending]; [constructor |].
  destruct (sort_ascending key l) as [r | e]; cbn [mbind result_bind]; [| exact IH].
  pose proof (insert_sorted_outcome x r) as H.
  destruct (insert_sorted key x r) as [out | e]; [| exact H].
  rewrite <- H. constructor. exact IH.
Qed.

Lemma insert_sorted_same_kind x l :
  Forall (fun y => same_kind (key y) (key x) = true) l ->
  exists out, insert_sorted key x l = Ok out.
Proof.
  induction 1 as [|y l Hy _ IH]; cbn [insert_sorted]; [eauto |].
  destruct (value_lt_same_kind _ _ Hy) as [c Hc]. rewrite Hc.
  cbn [mbind result_bind]. destruct c; [| eauto].
  destruct IH as [out ->]. cbn [mbind result_bind]. eauto.
Qed.

Lemma sort_ascending_same_kind l :
  (forall a b, In a l -> In b l -> same_kind (key a) (key b) = true) ->
  exists out, sort_ascending key l = Ok out /\ Permutation l out.
Proof.
  induction l as [|x l IH]; intros H; cbn [sort_ascending].
  - exists []. split; [reflexivity | constructor].
  - destruct IH as (r & Hr & Hperm).
    { intros a b Ha Hb. apply H; right; assumption. }
    rewrite Hr. cbn [mbind result_bind].
    destruct (insert_sorted_same_kind x r) as [out Hout].
    { apply (Permutation_Forall Hperm). apply List.Forall_forall.
      intros y Hy. apply H; [right; exact Hy | left; reflexivity]. }
    exists out. split; [exact Hout |].
    pose proof (insert_sorted_outcome x r) as Ho. rewrite Hout in Ho.
    rewrite <- Ho. constructor. exact Hperm.
Qed.

Lemma sort_ascending_mixed l a b :
  In a l -> In b l -> same_kind (key a) (key b) = false ->
  sort_ascending key l = Raise TypeError.
Proof.
  revert a b. induction l as [|x l IH]; intros a b Ha Hb K; [destruct Ha |].
  cbn [sort_ascending].
  pose proof (sort_ascending_outcome l) as Ho.
  destruct (sort_ascending key l) as [r | e] eqn:Hr; cbn [mbind result_bind];
    [| congruence].
  (* the tail sorted without error: its keys are of one kind, and [x] is of another *)
  assert (exists y, In y l /\ same_kind (key y) (key x) = false) as (y & Hy & Kyx).
  { destruct Ha as [<- | Ha], Hb as [<- | Hb].
    - unfold same_kind in K. destruct (kind_of (key x)); discriminate.
    - exists b. split; [exact Hb |]. rewrite same_kind_sym. exact K.
    - exists a. split; [exact Ha | exact K].
    - discriminate (IH a b Ha Hb K). }
  destruct r as [|z r'].
  { apply Permutation_sym, Permutation_nil in Ho. subst l. destruct Hy. }
  cbn [insert_sorted].
  assert (In z l) as Hz.
  { apply (Permutation_in z (Permutation_sym Ho)). left. reflexivity. }
  destruct (same_kind (key z) (key x)) eqn:Kzx.
  - (* then [z] and [y] differ in kind inside the tail *)
    assert (same_kind (key z) (key y) = false) as Kzy.
    { destruct (same_kind (key z) (key y)) eqn:E; [| reflexivity].
      rewrite same_kind_sym in E.
      rewrite (same_kind_trans _ _ _ E Kzx) in Kyx. discriminate Kyx. }
    discriminate (IH z y Hz Hy Kzy).
  - rewrite (value_lt_other_kind _ _ Kzx). reflexivity.
Qed.

Lemma py_sorted_same_kind l (reverse : bool) :
  (forall a b, In a l -> In b l -> same_kind (key a) (key b) = true) ->
  exists out, py_sorted key l reverse = Ok out /\ Permutation l out.
Proof.
  intros H. unfold py_sorted. destruct reverse; [| apply sort_ascending_same_kind, H].
  destruct (sort_ascending_same_kind (rev l)) as (r & Hr & Hperm).
  { intros a b Ha Hb. apply H; apply in_rev; assumption. }
  rewrite Hr. cbn [mbind result_bind]. exists (rev r). split; [reflexivity |].
  rewrite <- (Permutation_rev r), <- Hperm. apply Permutation_rev.
Qed.

Lemma py_sorted_mixed l (reverse : bool) a b :
  In a l -> In b l -> same_kind (key a) (key b) = false ->
  py_sorted key l reverse = Raise TypeError.
Proof.
  intros Ha Hb K. unfold py_sorted. destruct reverse.
  - rewrite (sort_ascending_mixed (rev l) a b); [reflexivity | | | exact K];
      apply in_rev; rewrite rev_involutive; assumption.
  - apply (sort_ascending_mixed l a b); assumption.
Qed.

(** A sorted list of the domain sorts to itself. *)
Variable P : A -> Prop.
Hypothesis P_lt : forall a b, P a -> P b -> value_lt (key a) (key b) = Ok (ltb key a b).

Lemma sort_ascending_sorted l :
  Forall P l -> StronglySorted (le key) l -> sort_ascending key l = Ok l.
Proof.
  induction l as [|x l IH]; intros HP Hs; [reflexivity |].
  apply Forall_cons in HP as [Hx HP].
  apply StronglySorted_inv in Hs as [Hs Hall].
  cbn [sort_ascending]. rewrite (IH HP Hs). cbn [mbind result_bind].
  destruct l as [|y l']; [reflexivity |].
  cbn [insert_sorted].
  apply Forall_cons in HP as [Hy _]. apply Forall_inv in Hall.
  rewrite (P_lt y x Hy Hx). unfold le in Hall. rewrite Hall. reflexivity.
Qed.

Lemma py_sorted_sorted l (reverse : bool) :
  Forall P l ->
  StronglySorted (fun a b => if reverse then le key b a else le key a b) l ->
  py_sorted key l reverse = Ok l.
Proof.
  intros HP Hs. unfold py_sorted. destruct reverse.
  - rewrite (sort_ascending_sorted (rev l)).
    + cbn [mbind result_bind]. rewrite rev_involutive. reflexivity.
    + apply List.Forall_forall. intros x Hx. apply in_rev in Hx.
      rewrite List.Forall_forall in HP. auto.
    + apply (StronglySorted_rev (fun a b => le key b a) l Hs).
  - apply sort_ascending_sorted; assumption.
Qed.
End SortOutcome.

Lemma str_keyed_same_kind f a b :
  str_keyed f a -> str_keyed f b -> same_kind (sort_key f a) (sort_key f b) = true.
Proof. intros [s Hs] [t Ht]. unfold same_kind. rewrite Hs, Ht. reflexivity. Qed.

Lemma number_keyed_same_kind f a b :
  number_keyed f a -> number_keyed f b ->
  same_kind (sort_key f a) (sort_key f b) = true.
Proof. intros [s Hs] [t Ht]. unfold same_kind. rewrite Hs, Ht. reflexivity. Qed.

Lemma sort_rows_present rows f d :
  f <> "" ->
  sort_rows rows (Some f) d = py_sorted (sort_key f) rows d.
Proof.
  intros Hf. unfold sort_rows. apply String.eqb_neq in Hf. rewrite Hf. reflexivity.
Qed.

Lemma sort_rows_one_kind (rows : list (gmap string value)) (f : string)
    (d : bool) (Hf : f <> "") :
  Forall (str_keyed f) rows \/ Forall (number_keyed f) rows ->
  exists out, sort_rows rows (Some f) d = Ok out /\ Permutation rows out.
Proof.
  rewrite (sort_rows_present rows f d Hf).
  intros [H | H]; apply py_sorted_same_kind; intros a b Ha Hb;
    rewrite List.Forall_forall in H.
  - apply str_keyed_same_kind; auto.
  - apply number_keyed_same_kind; auto.
Qed.

(** X4: with a non-empty [sort_by], [sort_rows] returns a reordering of the
    rows (no row lost, none added) whenever the keys are all strings or all
    numbers, NaN included, and raises [TypeError] as soon as one row is
    keyed by a string and another by a number, whichever direction is
    asked. *)
Theorem sort_rows_type_error (rows : list (gmap string value)) (f : string)
    (d : bool) (Hf : f <> "") :
  (Forall (str_keyed f) rows \/ Forall (number_keyed f) rows ->
   exists out, sort_rows rows (Some f) d = Ok out /\ Permutation rows out) /\
  (forall a b, In a rows -> In b rows -> str_keyed f a -> number_keyed f b ->
   sort_rows rows (Some f) d = Raise TypeError).
Proof.
  split; [apply sort_rows_one_kind, Hf |].
  rewrite (sort_rows_present rows f d Hf).
  intros a b Ha Hb [s Hs] [n Hn].
  apply (py_sorted_mixed (sort_key f) rows d a b Ha Hb).
  unfold same_kind. rewrite Hs, Hn. reflexivity.
Qed.

Lemma sort_rows_type_error_witness :
  sort_rows [tagged (Some (VStr "x")) "a"; tagged None "b"] (Some "k") true
  = Raise TypeError.
Proof.
  apply (proj2 (sort_rows_type_error
                  [tagged (Some (VStr "x")) "a"; tagged None "b"] "k" true
                  ltac:(discriminate))
               (tagged (Some (VStr "x")) "a") (tagged None "b")).
  - left. reflexivity.
  - right. left. reflexivity.
  - exists "x". reflexivity.
  - exists (Dy 0 0). reflexivity.
Defined.

Section SortRowsAgain.
Variable f : string.
Variable P : gmap string value -> Prop.
Hypothesis P_lt :
  forall a b, P a -> P b ->
    value_lt (sort_key f a) (sort_key f b) = Ok (ltb (sort_key f) a b).
Hypothesis P_asym :
  forall a b, P a -> P b ->
    ltb (sort_key f) a b = true -> ltb (sort_key f) b a = false.
Hypothesis P_trans :
  forall a b c, P a -> P b -> P c ->
    le (sort_key f) a b -> le (sort_key f) b c -> le (sort_key f) a c.

Lemma sort_rows_again_on rows d out :
  f <> "" -> Forall P rows ->
  sort_rows rows (Some f) d = Ok out -> sort_rows out (Some f) d = Ok out.
Proof.
  intros Hf HP. rewrite !sort_rows_present by exact Hf. intros H.
  destruct (py_sorted_spec (sort_key f) P P_lt P_asym P_trans rows d HP)
    as (out' & Hout & Hperm & Hsorted & _).
  rewrite H in Hout. injection Hout as <-.
  apply (py_sorted_sorted (sort_key f) P P_lt); [| exact Hsorted].
  exact (Permutation_Forall Hperm HP).
Qed.

(** Without ties, the two directions are mirror images. *)
Lemma sort_rows_mirror_on rows asc desc :
  f <> "" -> Forall P rows ->
  (forall a b, In a rows -> In b rows ->
     le (sort_key f) a b -> le (sort_key f) b a -> a = b) ->
  sort_rows rows (Some f) false = Ok asc ->
  sort_rows rows (Some f) true = Ok desc ->
  desc = rev asc.
Proof.
  intros Hf HP Hties. rewrite !sort_rows_present by exact Hf. intros Ha Hd.
  destruct (py_sorted_spec (sort_key f) P P_lt P_asym P_trans rows false HP)
    as (asc' & Hasc & Hperm_a & Hsorted_a & _).
  destruct (py_sorted_spec (sort_key f) P P_lt P_asym P_trans rows true HP)
    as (desc' & Hdesc & Hperm_d & Hsorted_d & _).
  rewrite Ha in Hasc. injection Hasc as <-.
  rewrite Hd in Hdesc. injection Hdesc as <-.
  apply (StronglySorted_unique_strong (fun a b => le (sort_key f) b a)).
  - intros a b Hina Hinb Hab Hba.
    apply list_elem_of_In in Hina. apply list_elem_of_In in Hinb.
    apply in_rev in Hinb.
    apply Hties; [| | exact Hba | exact Hab].
    + apply (Permutation_in _ (Permutation_sym Hperm_d)). exact Hina.
    + apply (Permutation_in _ (Permutation_sym Hperm_a)). exact Hinb.
  - exact Hsorted_d.
  - apply (StronglySorted_rev (le (sort_key f)) asc Hsorted_a).
  - rewrite <- Hperm_d, <- (Permutation_rev asc). exact Hperm_a.
Qed.
End SortRowsAgain.

(** X5: sorting is idempotent: on rows whose keys are all strings or all
    numbers other than NaN, sorting the result of [sort_rows] again by the
    same field and direction returns it unchanged. *)
Theorem sort_rows_idempotent (rows out : list (gmap string value)) (f : string)
    (d : bool) (Hf : f <> "") (Hkeys : orderable f rows)
    (H : sort_rows rows (Some f) d = Ok out) :
  sort_rows out (Some f) d = Ok out.
Proof.
  destruct Hkeys as [Hstr | Hnum].
  - exact (sort_rows_again_on f (str_keyed f) (str_keyed_lt f) (str_keyed_asym f)
             (str_keyed_trans f) rows d out Hf Hstr H).
  - exact (sort_rows_again_on f (num_keyed f) (num_keyed_lt f) (num_keyed_asym f)
             (num_keyed_trans f) rows d out Hf Hnum H).
Qed.

Lemma sort_rows_idempotent_witness :
  sort_rows [tagged None "d"; tagged (Some (VInt 1)) "b";
             tagged (Some (VInt 2)) "a"; tagged (Some (VFloat (PyFloat.of_int 2))) "c"]
            (Some "k") false
  = Ok [tagged None "d"; tagged (Some (VInt 1)) "b";
        tagged (Some (VInt 2)) "a"; tagged (Some (VFloat (PyFloat.of_int 2))) "c"].
Proof.
  apply (sort_rows_idempotent tie_rows).
  - discriminate.
  - right. repeat constructor; (eexists; split; [reflexivity | discriminate]).
  - vm_compute. reflexivity.
Defined.

(** X6: when no two rows have equal keys, the descending order is the
    mirror image of the ascending one; with ties it is not, since both
    directions keep tied rows in their original order. *)
Theorem sort_rows_descending_mirror (rows asc desc : list (gmap string value))
    (f : string) (Hf : f <> "") (Hkeys : orderable f rows)
    (Hties : forall a b, In a rows -> In b rows ->
               same_key (sort_key f a) (sort_key f b) = true -> a = b)
    (Ha : sort_rows rows (Some f) false = Ok asc)
    (Hd : sort_rows rows (Some f) true = Ok desc) :
  desc = rev asc.
Proof.
  destruct Hkeys as [Hstr | Hnum].
  - apply (sort_rows_mirror_on f (str_keyed f) (str_keyed_lt f) (str_keyed_asym f)
             (str_keyed_trans f) rows asc desc Hf Hstr); [| exact Ha | exact Hd].
    intros a b Hina Hinb Hab Hba. apply Hties; [exact Hina | exact Hinb |].
    rewrite List.Forall_forall in Hstr.
    rewrite <- (same_key_eqvb f (str_keyed f) (str_keyed_lt f) a b) by auto.
    unfold eqvb. unfold le in Hab, Hba. rewrite Hab, Hba. reflexivity.
  - apply (sort_rows_mirror_on f (num_keyed f) (num_keyed_lt f) (num_keyed_asym f)
             (num_keyed_trans f) rows asc desc Hf Hnum); [| exact Ha | exact Hd].
    intros a b Hina Hinb Hab Hba. apply Hties; [exact Hina | exact Hinb |].
    rewrite List.Forall_forall in Hnum.
    rewrite <- (same_key_eqvb f (num_keyed f) (num_keyed_lt f) a b) by auto.
    unfold eqvb. unfold le in Hab, Hba. rewrite Hab, Hba. reflexivity.
Qed.

Lemma sort_rows_descending_mirror_witness :
  [tagged (Some (VInt 2)) "a"; tagged (Some (VInt 1)) "b"; tagged None "d"]
  = rev [tagged None "d"; tagged (Some (VInt 1)) "b"; tagged (Some (VInt 2)) "a"].
Proof.
  apply (sort_rows_descending_mirror distinct_rows _ _ "k").
  - discriminate.
  - right. repeat constructor; (eexists; split; [reflexivity | discriminate]).
  - intros a b Ha Hb.
    destruct Ha as [<- | [<- | [<- | []]]], Hb as [<- | [<- | [<- | []]]];
      intros H; try reflexivity; vm_compute in H; discriminate H.
  - vm_compute. reflexivity.
  - vm_compute. reflexivity.
Defined.

(** * [main] on accepted options *)

Lemma sort_key_build_row b s :
  sort_key "key" (build_row b s) = VStr (key s) /\
  sort_key "name" (build_row b s) = VStr (name s) /\
  sort_key "family" (build_row b s) = VStr (family s) /\
  sort_key "privacy_level" (build_row b s) = VInt (privacy_level s) /\
  sort_key "soundness_focus" (build_row b s) = VInt (soundness_focus s) /\
  sort_key "performance_cost" (build_row b s) = VInt (performance_cost s) /\
  sort_key "dev_complexity" (build_row b s) = VInt (dev_complexity s) /\
  sort_key "ecosystem_maturity" (build_row b s) = VInt (ecosystem_maturity s) /\
  sort_key "composite_score" (build_row true s) = VFloat (score_stack s).
Proof.
  destruct (build_row_spec b s) as (_ & K1 & K2 & K3 & _ & K5 & K6 & K7 & K8 & K9 & _).
  destruct (build_row_spec true s) as (_ & _ & _ & _ & _ & _ & _ & _ & _ & _ & K10).
  unfold sort_key. rewrite K1, K2, K3, K5, K6, K7, K8, K9, K10. repeat split.
Qed.

Lemma build_rows_one_kind f stacks b :
  In f FIELDS_ORDER \/ (f = "composite_score" /\ b = true) ->
  Forall (str_keyed f) (build_rows stacks b) \/
  Forall (number_keyed f) (build_rows stacks b).
Proof.
  intros Hf.
  assert ((forall s, str_keyed f (build_row b s)) \/
          (forall s, number_keyed f (build_row b s))) as [H | H].
  { destruct Hf as [Hf | [-> ->]].
    - simpl in Hf.
      destruct Hf as [<- | [<- | [<- | [<- | [<- | [<- | [<- | [<- | []]]]]]]]];
        [left | left | left | right | right | right | right | right];
        intros s;
        destruct (sort_key_build_row b s) as (K1 & K2 & K3 & K4 & K5 & K6 & K7 & K8 & _);
        unfold str_keyed, number_keyed;
        first [rewrite K1 | rewrite K2 | rewrite K3 | rewrite K4
              | rewrite K5 | rewrite K6 | rewrite K7 | rewrite K8];
        eexists; reflexivity.
    - right. intros s.
      destruct (sort_key_build_row true s) as (_ & _ & _ & _ & _ & _ & _ & _ & K9).
      unfold number_keyed. rewrite K9. eexists; reflexivity. }
  - left. unfold build_rows. apply List.Forall_forall. intros r Hr.
    apply in_map_iff in Hr as (s & <- & _). apply H.
  - right. unfold build_rows. apply List.Forall_forall. intros r Hr.
    apply in_map_iff in Hr as (s & <- & _). apply H.
Qed.

Lemma select_stacks_valid k :
  In k (list_keys ++ ["all"]) -> exists stacks, select_stacks k = Ok stacks.
Proof.
  simpl. intros [<- | [<- | [<- | [<- | []]]]]; eexists; reflexivity.
Qed.

Lemma shown_rows args stacks :
  select_stacks (stack args) = Ok stacks ->
  (if sorts_by_score args && negb (include_score args)
   then attach_scores (build_rows stacks (include_score args))
   else Ok (build_rows stacks (include_score args)))
  = Ok (build_rows stacks (include_score args || sorts_by_score args)).
Proof.
  intros Hs. destruct (include_score args), (sorts_by_score args); try reflexivity.
  cbn [andb negb orb].
  apply attach_scores_build_rows, (select_stacks_catalog (stack args)), Hs.
Qed.

(** X7: on every combination of options [argparse] accepts, in all three
    formats, [main] raises nothing: the stack selection succeeds, the rows
    handed to the renderer are a reordering of the rows built for the
    selected stacks (with the score exactly when it is shown), and a text
    is printed. *)
Theorem main_accepts_valid_args (args : Namespace) (Hv : valid_args args) :
  exists stacks rows out,
    select_stacks (stack args) = Ok stacks /\
    main_rows args = Ok rows /\
    Permutation
      (build_rows stacks (include_score args || sorts_by_score args)) rows /\
    main args = Ok out.
Proof.
  destruct Hv as [Hstack Hsort].
  destruct (select_stacks_valid _ Hstack) as [stacks Hs].
  assert (exists rows,
            main_rows args = Ok rows /\
            Permutation
              (build_rows stacks (include_score args || sorts_by_score args)) rows)
    as (rows & Hrows & Hperm).
  { unfold main_rows. rewrite Hs. cbn [mbind result_bind].
    rewrite (shown_rows args stacks Hs). cbn [mbind result_bind].
    unfold sorts_by_score in *.
    destruct (sort_by args) as [f |] eqn:Ef.
    - assert (f <> "") as Hf.
      { intros ->. simpl in Hsort.
        repeat (destruct Hsort as [Hsort | Hsort]; [discriminate |]). exact Hsort. }
      apply (sort_rows_one_kind _ f (descending args) Hf).
      apply build_rows_one_kind.
      apply in_app_or in Hsort as [Hin | [<- | []]]; [left; exact Hin |].
      right. split; [reflexivity |]. rewrite orb_true_r. reflexivity.
    - eexists. split; [reflexivity | reflexivity]. }
  exists stacks, rows.
  eexists. split; [exact Hs |]. split; [exact Hrows |]. split; [exact Hperm |].
  unfold main. rewrite Hrows. reflexivity.
Qed.

Lemma main_accepts_valid_args_witness :
  exists stacks rows out,
    select_stacks "all" = Ok stacks /\
    main_rows csv_by_score_args = Ok rows /\
    Permutation (build_rows stacks true) rows /\
    main csv_by_score_args = Ok out.
Proof.
  apply (main_accepts_valid_args csv_by_score_args).
  split; simpl; auto 20.
Defined.

(** * The score column and the rows [main] renders *)

Lemma score_shown_flag args :
  score_shown args = include_score args || sorts_by_score args.
Proof.
  unfold score_shown, sorts_by_score.
  destruct (include_score args); [apply bool_decide_eq_true; auto |].
  destruct (sort_by args) as [f |]; cbn [orb].
  - destruct (String.eqb f "composite_score") eqn:E.
    + apply String.eqb_eq in E. subst f. apply bool_decide_eq_true. auto.
    + apply String.eqb_neq in E. apply bool_decide_eq_false.
      intros [H | H]; [discriminate | congruence].
  - apply bool_decide_eq_false. intros [H | H]; discriminate.
Qed.

Lemma main_rows_selected args stacks :
  select_stacks (stack args) = Ok stacks ->
  main_rows args
  = sort_rows (build_rows stacks (score_shown args)) (sort_by args) (descending args).
Proof.
  intros Hs. unfold main_rows. rewrite Hs. cbn [mbind result_bind].
  rewrite (shown_rows args stacks Hs), score_shown_flag. reflexivity.
Qed.

Lemma build_rows_among stacks b :
  Forall (row_among stacks b) (build_rows stacks b).
Proof.
  apply List.Forall_forall. intros r Hr. unfold build_rows in Hr.
  apply in_map_iff in Hr as (s & <- & Hs).
  exists s. split; [exact Hs | apply build_row_spec].
Qed.

Lemma catalog_scores_ordered stacks :
  Forall (fun s => In s (map snd STACKS)) stacks ->
  Forall (num_keyed "composite_score") (build_rows stacks true).
Proof.
  intros H. apply List.Forall_forall. intros r Hr. unfold build_rows in Hr.
  apply in_map_iff in Hr as (s & <- & Hs).
  rewrite List.Forall_forall in H. specialize (H s Hs). simpl in H.
  destruct H as [<- | [<- | [<- | []]]];
    (eexists; split; [vm_compute; reflexivity | discriminate]).
Qed.

Lemma sort_choice_present f :
  In f (FIELDS_ORDER ++ ["composite_score"]) -> f <> "".
Proof.
  intros H ->. simpl in H.
  repeat (destruct H as [H | H]; [discriminate |]). exact H.
Qed.

Lemma main_on_rows args rows :
  main_rows args = Ok rows -> format args <> Json_ ->
  main args
  = Ok (print match format args with
              | Csv => format_csv rows (score_shown args)
              | _ => format_table rows (score_shown args)
              end).
Proof.
  intros Hr Hf. unfold main. rewrite Hr, score_shown_flag.
  destruct (format args); [reflexivity | reflexivity | contradiction].
Qed.

(** C7: for every combination of options [argparse] accepts, [main]
    selects the stacks, renders a reordering of the rows built for them,
    each holding the fields of its stack and the score exactly when
    [--include-score] is set or [--sort-by] is [composite_score], and the
    table or CSV it prints shows the [composite_score] column under exactly
    that condition.  With [--sort-by composite_score] the rendered rows are
    in the order of their scores, in the direction asked, and rows and
    output are the same whether or not [--include-score] was given; thus
    [--stack all --sort-by composite_score --format csv] prints the three
    stacks with their scores, the lowest first. *)
Theorem score_column_shown (args : Namespace)
    (Hv : valid_args args) (Hf : format args <> Json_) :
  exists stacks rows out,
    select_stacks (stack args) = Ok stacks /\
    main_rows args = Ok rows /\
    main args = Ok out /\
    Permutation (build_rows stacks (score_shown args)) rows /\
    Forall (row_among stacks (score_shown args)) rows /\
    out = print match format args with
                | Csv => format_csv rows (score_shown args)
                | _ => format_table rows (score_shown args)
                end /\
    rendered_columns (format args) out
    = map (label (format args))
          (FIELDS_ORDER ++
           (if score_shown args then ["composite_score"] else [])) /\
    (In (label (format args) "composite_score")
        (rendered_columns (format args) out)
     <-> include_score args = true \/ sort_by args = Some "composite_score") /\
    (sort_by args = Some "composite_score" ->
     StronglySorted (score_ordered (descending args)) rows /\
     main_rows (with_include_score true args) = main_rows args /\
     main (with_include_score true args) = main args) /\
    main csv_ascending_by_score_args
    = Ok (PyStr.join nl csv_ascending_by_score_lines +:+ nl).
Proof.
  pose proof Hv as [Hstack Hsort].
  destruct (select_stacks_valid _ Hstack) as [stacks Hs].
  pose proof (select_stacks_catalog _ _ Hs) as Hcat.
  pose proof (main_rows_selected args stacks Hs) as Hsel.
  assert (exists rows,
            main_rows args = Ok rows /\
            Permutation (build_rows stacks (score_shown args)) rows /\
            (sort_by args = Some "composite_score" ->
             StronglySorted (score_ordered (descending args)) rows))
    as (rows & Hrows & Hperm & Hsorted).
  { rewrite Hsel. destruct (sort_by args) as [f |] eqn:Ef.
    - pose proof (sort_choice_present f Hsort) as Hne.
      destruct (String.eqb f "composite_score") eqn:E.
      + apply String.eqb_eq in E. subst f.
        assert (score_shown args = true) as ->.
        { apply bool_decide_eq_true. right. exact Ef. }
        destruct (sort_rows_on "composite_score" (num_keyed "composite_score")
                    (num_keyed_lt _) (num_keyed_asym _) (num_keyed_trans _)
                    (build_rows stacks true) (descending args) Hne
                    (catalog_scores_ordered stacks Hcat))
          as (out & Hout & Hp & Hso & _).
        exists out. split; [exact Hout |]. split; [exact Hp |].
        intros _. exact Hso.
      + apply String.eqb_neq in E.
        destruct (sort_rows_one_kind (build_rows stacks (score_shown args)) f
                    (descending args) Hne) as (out & Hout & Hp).
        { apply build_rows_one_kind.
          apply in_app_or in Hsort as [Hin | [<- | []]];
            [left; exact Hin | congruence]. }
        exists out. split; [exact Hout |]. split; [exact Hp |].
        intros [= Hc]. congruence.
    - eexists. split; [reflexivity |]. split; [reflexivity | discriminate]. }
  pose proof (main_on_rows args rows Hrows Hf) as Hmain.
  pose proof (valid_args_columns args Hv Hf) as Hcols.
  unfold columns_as_expected in Hcols. rewrite Hmain in Hcols.
  apply bool_decide_eq_true in Hcols.
  rewrite <- score_shown_flag in Hcols.
  exists stacks, rows. eexists.
  split; [exact Hs |]. split; [exact Hrows |]. split; [exact Hmain |].
  split; [exact Hperm |].
  split; [exact (Permutation_Forall Hperm (build_rows_among stacks _)) |].
  split; [reflexivity |]. split; [exact Hcols |]. split; [| split].
  - rewrite Hcols, (score_label_shown _ _ Hf), score_shown_flag.
    apply effective_flag.
  - intros Hby.
    assert (sorts_by_score args = true) as Hb.
    { unfold sorts_by_score. rewrite Hby. reflexivity. }
    split; [exact (Hsorted Hby) |].
    split; [apply main_rows_transient_score; exact Hb |].
    apply main_transient_score; exact Hb.
  - vm_compute. reflexivity.
Qed.

Lemma score_column_shown_witness :
  exists rows out,
    main_rows csv_by_score_args = Ok rows /\
    main csv_by_score_args = Ok out /\
    Permutation (build_rows [aztec; zama; soundness] true) rows /\
    Forall (row_among [aztec; zama; soundness] true) rows /\
    StronglySorted (score_ordered true) rows /\
    rendered_columns Csv out = FIELDS_ORDER ++ ["composite_score"].
Proof.
  destruct (score_column_shown csv_by_score_args)
    as (stacks & rows & out & Hs & Hr & Hm & Hp & Ha & _ & Hc & _ & Hso & _).
  - split; simpl; auto 20.
  - discriminate.
  - injection Hs as <-. exists rows, out.
    split; [exact Hr |]. split; [exact Hm |]. split; [exact Hp |].
    split; [exact Ha |]. split; [apply Hso; reflexivity | exact Hc].
Defined.

(** * The shape of the rendered table and CSV *)

Lemma join_cons_nonempty sep x y l :
  PyStr.join sep (x :: y :: l) = x +:+ sep +:+ PyStr.join sep (y :: l).
Proof. reflexivity. Qed.

Lemma join_length sep (cells : list string) :
  String.length (PyStr.join sep cells)
  = (list_sum (map String.length cells)
     + String.length sep * (length cells - 1))%nat.
Proof.
  induction cells as [|x cells IH].
  { change (String.length (PyStr.join sep [])) with 0%nat.
    cbn [map list_sum fold_right length Nat.sub]. lia. }
  destruct cells as [|y cells].
  - change (PyStr.join sep [x]) with x. cbn [map list_sum fold_right length Nat.sub]. lia.
  - rewrite join_cons_nonempty, !string_app_length, IH.
    cbn [map list_sum fold_right length Nat.sub]. lia.
Qed.

Lemma join_snoc sep (cells : list string) x :
  cells <> [] ->
  PyStr.join sep (cells ++ [x]) = PyStr.join sep cells +:+ sep +:+ x.
Proof.
  induction cells as [|c cells IH]; intros Hne; [congruence |].
  destruct cells as [|c' cells]; [reflexivity |].
  change ((c :: c' :: cells) ++ [x]) with (c :: c' :: (cells ++ [x])).
  rewrite !join_cons_nonempty.
  change (c' :: cells ++ [x]) with ((c' :: cells) ++ [x]).
  rewrite IH by discriminate. rewrite !append_assoc. reflexivity.
Qed.

Lemma line_length headers (widths : string -> nat) (cell : string -> string) :
  (forall h, In h headers -> String.length (cell h) = widths h) ->
  String.length (PyStr.join "  " (map cell headers))
  = (list_sum (map widths headers) + 2 * (length headers - 1))%nat.
Proof.
  intros H. rewrite join_length, length_map, map_map.
  rewrite (map_ext_in _ _ _ H). reflexivity.
Qed.

(** X8: a table is a rectangle: [format_table] joins with newlines the
    header line, the separator line and one line per row, and every one of
    these lines has the same length, the sum of the column widths plus two
    spaces between neighbouring columns. *)
Theorem format_table_rectangular (rows : list (gmap string value))
    (include_score : bool) :
  exists lines,
    format_table rows include_score = PyStr.join nl lines /\
    length lines = (2 + length rows)%nat /\
    Forall (fun l => String.length l = table_width (headers_for include_score) rows)
           lines.
Proof.
  eexists. split; [apply format_table_lines |].
  split; [cbn [length]; rewrite length_map; reflexivity |].
  unfold table_width.
  constructor; [| constructor].
  - apply line_length. intros h _. apply ljust_length, column_width_header.
  - apply line_length. intros h _. apply repeat_char_length.
  - apply List.Forall_forall. intros l Hl.
    apply in_map_iff in Hl as (r & <- & Hr).
    apply line_length. intros h _. apply ljust_length, column_width_cell, Hr.
Qed.

Lemma headers_for_true : headers_for true = headers_for false ++ ["composite_score"].
Proof. unfold headers_for. rewrite app_nil_r. reflexivity. Qed.

Lemma headers_for_false_nonempty {B} (g : string -> B) :
  map g (headers_for false) <> [].
Proof. discriminate. Qed.

(** X9: showing the score only appends a column: every line of the CSV or
    table rendered with the score column is the corresponding line
    rendered without it, followed by the separator and the score cell; the
    other columns keep their content and their widths. *)
Theorem score_column_is_appended (rows : list (gmap string value)) :
  format_csv rows false
  = PyStr.join nl
      (PyStr.join "," (headers_for false)
       :: map (csv_record (headers_for false)) rows) /\
  format_csv rows true
  = PyStr.join nl
      ((PyStr.join "," (headers_for false) +:+ "," +:+ "composite_score")
       :: map (fun r => csv_record (headers_for false) r
                        +:+ "," +:+ esc (get_cell r "composite_score")) rows) /\
  format_table rows false
  = PyStr.join nl
      (header_line (headers_for false) rows
       :: separator_line (headers_for false) rows
       :: map (data_line (headers_for false) rows) rows) /\
  format_table rows true
  = PyStr.join nl
      ((header_line (headers_for false) rows +:+ "  "
        +:+ PyStr.ljust "COMPOSITE_SCORE" (column_width rows "composite_score"))
       :: (separator_line (headers_for false) rows +:+ "  "
           +:+ PyStr.repeat_char "-"%char (column_width rows "composite_score"))
       :: map (fun r => data_line (headers_for false) rows r +:+ "  "
                        +:+ PyStr.ljust (cell_text r "composite_score")
                              (column_width rows "composite_score")) rows).
Proof.
  split; [reflexivity |].
  split.
  { unfold format_csv. cbv zeta. rewrite headers_for_true.
    rewrite (join_snoc "," (headers_for false) "composite_score") by discriminate.
    f_equal. f_equal. apply map_ext. intros r. unfold csv_record.
    rewrite map_app. cbn [map]. apply join_snoc. apply headers_for_false_nonempty. }
  split; [apply format_table_lines |].
  rewrite format_table_lines, headers_for_true.
  unfold header_line, separator_line. rewrite !map_app. cbn [map].
  rewrite !join_snoc by apply headers_for_false_nonempty.
  f_equal. f_equal. f_equal.
  apply map_ext. intros r. unfold data_line. rewrite map_app. cbn [map].
  apply join_snoc. apply headers_for_false_nonempty.
Qed.

(** * Reading a CSV cell back *)

Lemma undouble_doubled s : undouble (doubled s +:+ dq) = s.
Proof.
  unfold doubled. induction s as [|c s IH]; [reflexivity |].
  cbn [list_ascii_of_string flat_map].
  destruct (Ascii.eqb c quote_char) eqn:E.
  - apply Ascii.eqb_eq in E. subst c.
    cbn [app string_of_list_ascii].
    change (undouble (String quote_char (String quote_char ?t)))
      with (String quote_char (undouble t)).
    change (String quote_char (String quote_char
              (string_of_list_ascii
                 (flat_map (fun c => if Ascii.eqb c quote_char
                                     then [quote_char; quote_char] else [c])
                           (list_ascii_of_string s)))) +:+ dq)
      with (String quote_char (String quote_char
              (string_of_list_ascii
                 (flat_map (fun c => if Ascii.eqb c quote_char
                                     then [quote_char; quote_char] else [c])
                           (list_ascii_of_string s)) +:+ dq))).
    cbn [undouble]. rewrite Ascii.eqb_refl. rewrite IH. reflexivity.
  - cbn [app string_of_list_ascii].
    change (String c ?t +:+ dq) with (String c (t +:+ dq)).
    cbn [undouble]. rewrite E, IH. reflexivity.
Qed.

Lemma unquote_plain s :
  PyStr.contains quote_char s = false -> unquote s = s.
Proof.
  destruct s as [|c s]; [reflexivity |]. cbn [PyStr.contains unquote].
  rewrite Ascii.eqb_sym. destruct (Ascii.eqb c quote_char); [discriminate | reflexivity].
Qed.

(** X10: CSV escaping loses nothing: reading a cell written by [esc] the
    way CSV readers do (a cell that opens with a double quote is quoted,
    and inside it two double quotes stand for one) gives back the string
    form of the value; hence values with different string forms never
    share a cell text. *)
Theorem esc_unquote (v w : value) :
  unquote (esc v) = py_str v /\
  (esc v = esc w -> py_str v = py_str w).
Proof.
  assert (forall u, unquote (esc u) = py_str u) as H.
  { intros u. rewrite esc_unfold.
    destruct (existsb _ _) eqn:E.
    - rewrite replace_quote_doubled.
      change (unquote (dq +:+ doubled (py_str u) +:+ dq))
        with (undouble (doubled (py_str u) +:+ dq)).
      apply undouble_doubled.
    - apply unquote_plain.
      cbn [existsb] in E. apply orb_false_iff in E as [_ E].
      apply orb_false_iff in E as [E _]. exact E. }
  split; [apply H |].
  intros E. rewrite <- (H v), <- (H w), E. reflexivity.
Qed.

Lemma esc_unquote_witness : py_str (VStr "7") = py_str (VInt 7).
Proof.
  apply (proj2 (esc_unquote (VStr "7") (VInt 7))). reflexivity.
Defined.

(** * Reading JSON strings back *)

Lemma unescape_escape_char c rest :
  unescape (Json.escape_char c +:+ rest) = String c (unescape rest).
Proof.
  destruct c as [[] [] [] [] [] [] [] []]; reflexivity.
Qed.

Lemma printable_leb c :
  (32 <=? nat_of_ascii c)%nat && (nat_of_ascii c <=? 126)%nat = true -> printable c.
Proof.
  intros H. apply andb_prop in H as [H1 H2].
  split; apply Nat.leb_le; assumption.
Qed.

Lemma forallb_printable s :
  forallb (fun c => (32 <=? nat_of_ascii c)%nat && (nat_of_ascii c <=? 126)%nat)
          (list_ascii_of_string s) = true ->
  Forall printable (list_ascii_of_string s).
Proof.
  intros H. apply List.Forall_forall. intros c Hc.
  rewrite forallb_forall in H. apply printable_leb, H, Hc.
Qed.

Lemma escape_char_printable c :
  Forall printable (list_ascii_of_string (Json.escape_char c)).
Proof.
  destruct c as [[] [] [] [] [] [] [] []]; apply forallb_printable; reflexivity.
Qed.

Lemma list_ascii_app s t :
  list_ascii_of_string (s +:+ t) = list_ascii_of_string s ++ list_ascii_of_string t.
Proof.
  induction s as [|c s IH]; [reflexivity |].
  change (String c s +:+ t) with (String c (s +:+ t)).
  cbn [list_ascii_of_string app]. rewrite IH. reflexivity.
Qed.

(** X11: the JSON string encoder is lossless and pure ASCII: reading the
    escapes of [escape s] back gives [s] for every string, and the encoded
    text holds only printable ASCII characters (no raw newline, control or
    8-bit character). *)
Theorem json_escape_round_trip (s : string) :
  unescape (Json.escape s) = s /\
  Forall printable (list_ascii_of_string (Json.escape s)).
Proof.
  split.
  - induction s as [|c s IH]; [reflexivity |].
    cbn [Json.escape]. rewrite unescape_escape_char, IH. reflexivity.
  - induction s as [|c s IH]; [constructor |].
    cbn [Json.escape]. rewrite list_ascii_app. apply Forall_app.
    split; [apply escape_char_printable | exact IH].
Qed.

(** X12: for every stack, from the catalog or not, the JSON object of its
    row lists the nine fields of the record in alphabetical order, the
    [description] among them, preceded by [composite_score] when the row
    was built with the score. *)
Theorem json_items_of_row (s : PrivacyStack) (b : bool) :
  Json.sorted_items (build_row b s)
  = (if b then [("composite_score", VFloat (score_stack s))] else [])
    ++ json_fields s.
Proof.
  destruct b.
  - unfold build_row. generalize (score_stack s) as x. intros x.
    destruct s as [k n f d p sd c dc m]. vm_compute. reflexivity.
  - destruct s as [k n f d p sd c dc m]. vm_compute. reflexivity.
Qed.

(** * The score grows with the benefits and shrinks with the penalties *)

Lemma round_half_even_exact n d : PyFloat.round_half_even (n * Zpos d) d = n.
Proof.
  unfold PyFloat.round_half_even.
  rewrite Z.div_mul by discriminate. rewrite Z.mod_mul by discriminate.
  reflexivity.
Qed.

Lemma score_spec_hundredths st : ScoreSpec.score st = (hundredths st # 100).
Proof.
  unfold ScoreSpec.score, ScoreSpec.round2, ScoreSpec.benefit, ScoreSpec.penalty,
    hundredths.
  destruct st as [k n f d p s c dc m].
  cbn [privacy_level soundness_focus performance_cost dev_complexity]. cbv zeta.
  set (h := (_ * 100)%Q).
  assert (Qden h = 100000000%positive) as Hden by reflexivity.
  assert (Qnum h = (45 * p + 40 * s - (10 * c + 5 * dc)) * Zpos 100000000) as Hnum.
  { unfold h. cbn. lia. }
  rewrite Hden, Hnum, round_half_even_exact. reflexivity.
Qed.

Lemma score_stack_hundredths st :
  in_range st -> score_stack st = decimal2 (hundredths st).
Proof.
  intros H. rewrite (score_stack_in_range st H), score_spec_hundredths. reflexivity.
Qed.

Lemma hundredths_in_grid st : in_range st -> In (hundredths st) score_grid.
Proof.
  unfold in_range, level, hundredths, score_grid.
  intros (Hp & Hs & Hc & Hd & _).
  apply in_map_iff.
  exists (9 * privacy_level st + 8 * soundness_focus st
          - (2 * performance_cost st + dev_complexity st)).
  split; [lia |]. apply list_elem_of_In, elem_of_seqZ. lia.
Qed.

Lemma increasing_pairs (fs : list (Z * num)) :
  forallb (fun a => forallb (fun b => implb (a.1 <? b.1) (num_ltb a.2 b.2)) fs) fs = true ->
  forall a b, In a fs -> In b fs -> a.1 < b.1 -> num_ltb a.2 b.2 = true.
Proof.
  intros H a b Ha Hb Hab.
  rewrite forallb_forall in H. specialize (H a Ha).
  rewrite forallb_forall in H. specialize (H b Hb).
  apply Z.ltb_lt in Hab. rewrite Hab in H. exact H.
Qed.

(** On the grid, more hundredths give a greater float. *)
Lemma grid_increasing :
  forallb (fun a => forallb (fun b => implb (a.1 <? b.1) (num_ltb a.2 b.2))
                            grid_floats)
          grid_floats = true.
Proof. vm_compute. reflexivity. Qed.

Lemma in_grid_floats a :
  In a score_grid -> In (a, num_of_float (decimal2 a)) grid_floats.
Proof.
  intros Ha.
  apply (in_map (fun n => (n, num_of_float (decimal2 n))) score_grid a Ha).
Qed.

Lemma decimal2_increasing a b :
  In a score_grid -> In b score_grid -> a < b ->
  num_ltb (num_of_float (decimal2 a)) (num_of_float (decimal2 b)) = true.
Proof.
  intros Ha Hb Hab.
  exact (increasing_pairs grid_floats grid_increasing
           (a, num_of_float (decimal2 a)) (b, num_of_float (decimal2 b))
           (in_grid_floats a Ha) (in_grid_floats b Hb) Hab).
Qed.

Lemma num_ltb_irrefl x : num_ltb x x = false.
Proof.
  destruct (num_ltb x x) eqn:E; [| reflexivity].
  pose proof (num_ltb_asym x x E). congruence.
Qed.

(** X13: privacy and soundness are benefits, cost and complexity are
    penalties: between two stacks with fields in [1,10], one that is at
    least as private and as sound and at most as costly and as complex
    never scores lower, and it scores strictly higher as soon as one of
    the four fields differs. *)
Theorem score_stack_monotone (st st' : PrivacyStack)
    (H : in_range st) (H' : in_range st')
    (Hp : privacy_level st <= privacy_level st')
    (Hs : soundness_focus st <= soundness_focus st')
    (Hc : performance_cost st' <= performance_cost st)
    (Hd : dev_complexity st' <= dev_complexity st) :
  value_lt (VFloat (score_stack st')) (VFloat (score_stack st)) = Ok false /\
  (privacy_level st < privacy_level st' \/ soundness_focus st < soundness_focus st' \/
   performance_cost st' < performance_cost st \/ dev_complexity st' < dev_complexity st ->
   value_lt (VFloat (score_stack st)) (VFloat (score_stack st')) = Ok true).
Proof.
  rewrite (score_stack_hundredths st H), (score_stack_hundredths st' H').
  pose proof (hundredths_in_grid st H) as Hg.
  pose proof (hundredths_in_grid st' H') as Hg'.
  assert (hundredths st <= hundredths st') as Hle by (unfold hundredths; lia).
  unfold value_lt. cbn [kind_of]. split.
  - f_equal. destruct (Z.eq_dec (hundredths st) (hundredths st')) as [-> | Hne].
    + apply num_ltb_irrefl.
    + apply num_ltb_asym, decimal2_increasing; [exact Hg | exact Hg' | lia].
  - intros Hstrict. f_equal.
    apply decimal2_increasing; [exact Hg | exact Hg' |]. unfold hundredths. lia.
Qed.

Lemma score_stack_monotone_witness :
  value_lt (VFloat (score_stack soundness)) (VFloat (score_stack (probe 6 10 6 8)))
  = Ok false.
Proof.
  apply (score_stack_monotone (probe 6 10 6 8) soundness);
    unfold in_range, level; simpl; lia.
Defined.

(** * Reading a CSV text back *)

Lemma cell_of_rev s cur :
  cell_of (rev (list_ascii_of_string s) ++ cur) = cell_of cur +:+ s.
Proof.
  unfold cell_of. rewrite rev_app_distr, rev_involutive.
  induction (rev cur) as [|c l IH]; simpl.
  - apply string_of_list_ascii_of_string.
  - change (String c (string_of_list_ascii l) +:+ s)
      with (String c (string_of_list_ascii l +:+ s)).
    rewrite IH. reflexivity.
Qed.

Lemma after_plain cur fields tail :
  separator_led tail ->
  parse_csv_go InPlain cur fields tail = after_cell (cell_of cur) fields tail.
Proof.
  destruct tail as [|c t]; [reflexivity |]. cbn [separator_led parse_csv_go after_cell].
  intros [-> | ->]; reflexivity.
Qed.

Lemma after_quote cur fields tail :
  separator_led tail ->
  parse_csv_go AfterQuote cur fields tail = after_cell (cell_of cur) fields tail.
Proof.
  destruct tail as [|c t]; [reflexivity |]. cbn [separator_led parse_csv_go after_cell].
  intros [-> | ->]; reflexivity.
Qed.

Lemma at_start_empty fields tail :
  separator_led tail ->
  parse_csv_go AtStart [] fields tail = after_cell "" fields tail.
Proof.
  destruct tail as [|c t]; [reflexivity |]. cbn [separator_led parse_csv_go after_cell].
  intros [-> | ->]; reflexivity.
Qed.

Lemma app_cons c s t : String c s +:+ t = String c (s +:+ t).
Proof. reflexivity. Qed.

Lemma quoted_run s cur fields tail :
  parse_csv_go InQuoted cur fields (doubled s +:+ dq +:+ tail)
  = parse_csv_go AfterQuote (rev (list_ascii_of_string s) ++ cur) fields tail.
Proof.
  revert cur. unfold doubled. induction s as [|c s IH]; intros cur.
  - reflexivity.
  - cbn [list_ascii_of_string flat_map].
    destruct (Ascii.eqb c quote_char) eqn:E.
    + apply Ascii.eqb_eq in E. subst c.
      cbn [app string_of_list_ascii]. rewrite !app_cons.
      cbn [parse_csv_go]. rewrite Ascii.eqb_refl.
      rewrite IH. cbn [rev]. rewrite <- app_assoc. reflexivity.
    + cbn [app string_of_list_ascii]. rewrite !app_cons.
      cbn [parse_csv_go]. rewrite E, IH.
      cbn [rev]. rewrite <- app_assoc. reflexivity.
Qed.

Lemma plain_run s cur fields tail :
  PyStr.contains comma_char s = false ->
  PyStr.contains newline_char s = false ->
  parse_csv_go InPlain cur fields (s +:+ tail)
  = parse_csv_go InPlain (rev (list_ascii_of_string s) ++ cur) fields tail.
Proof.
  revert cur. induction s as [|c s IH]; intros cur Hc Hn; [reflexivity |].
  cbn [PyStr.contains] in Hc, Hn.
  rewrite (Ascii.eqb_sym comma_char c) in Hc.
  rewrite (Ascii.eqb_sym newline_char c) in Hn.
  destruct (Ascii.eqb c comma_char) eqn:Ec; [discriminate |].
  destruct (Ascii.eqb c newline_char) eqn:En; [discriminate |].
  rewrite app_cons. cbn [parse_csv_go]. rewrite Ec, En.
  rewrite (IH (c :: cur) Hc Hn).
  cbn [list_ascii_of_string rev]. rewrite <- app_assoc. reflexivity.
Qed.

(** One cell written by [esc], followed by a separator or by nothing. *)
Lemma read_cell v fields tail :
  separator_led tail ->
  parse_csv_go AtStart [] fields (esc v +:+ tail) = after_cell (py_str v) fields tail.
Proof.
  intros Ht. rewrite esc_unfold.
  destruct (existsb _ _) eqn:E.
  - rewrite replace_quote_doubled.
    change (dq +:+ doubled (py_str v) +:+ dq)
      with (String quote_char (doubled (py_str v) +:+ dq)).
    rewrite app_cons, append_assoc. cbn [parse_csv_go]. rewrite Ascii.eqb_refl.
    rewrite quoted_run, (after_quote _ _ _ Ht), cell_of_rev. reflexivity.
  - cbn [existsb] in E.
    apply orb_false_iff in E as [Hc E]. apply orb_false_iff in E as [Hq E].
    apply orb_false_iff in E as [Hn _].
    destruct (py_str v) as [|c s] eqn:Es.
    + apply at_start_empty, Ht.
    + cbn [PyStr.contains] in Hc, Hq, Hn.
      rewrite (Ascii.eqb_sym comma_char c) in Hc.
      rewrite (Ascii.eqb_sym quote_char c) in Hq.
      rewrite (Ascii.eqb_sym newline_char c) in Hn.
      destruct (Ascii.eqb c comma_char) eqn:Ec; [discriminate |].
      destruct (Ascii.eqb c quote_char) eqn:Eq; [discriminate |].
      destruct (Ascii.eqb c newline_char) eqn:En; [discriminate |].
      rewrite app_cons. cbn [parse_csv_go]. rewrite Ec, Eq, En.
      rewrite (plain_run s [c] fields tail Hc Hn), (after_plain _ _ _ Ht).
      rewrite (cell_of_rev s [c]). reflexivity.
Qed.

Lemma more_records_led recs : separator_led (more_records recs).
Proof. destruct recs as [|[v vs] recs]; [exact I |]. right. reflexivity. Qed.

Lemma more_cells_led vs tail :
  separator_led tail -> separator_led (more_cells vs +:+ tail).
Proof. destruct vs as [|v vs]; [intros H; exact H |]. intros _. left. reflexivity. Qed.

(** The rest of a record, then the rest of the text. *)
Lemma read_record vs : forall cell fields recs,
  after_cell cell fields (more_cells vs +:+ more_records recs)
  = end_record (rev (map py_str vs) ++ cell :: fields) (more_records recs).
Proof.
  induction vs as [|v vs IH]; intros cell fields recs; [reflexivity |].
  cbn [more_cells]. rewrite !append_assoc.
  change ("," +:+ esc v +:+ more_cells vs +:+ more_records recs)
    with (String comma_char (esc v +:+ more_cells vs +:+ more_records recs)).
  cbn [after_cell]. rewrite Ascii.eqb_refl.
  rewrite read_cell by apply more_cells_led, more_records_led.
  rewrite IH. cbn [map rev]. rewrite <- app_assoc. reflexivity.
Qed.

Lemma end_record_text cells x tail :
  end_record (cells ++ [x]) tail
  = match tail with
    | EmptyString => [x :: rev cells]
    | String c t =>
        if Ascii.eqb c comma_char
        then parse_csv_go AtStart [] (cells ++ [x]) t
        else (x :: rev cells) :: parse_csv_go AtStart [] [] t
    end.
Proof.
  assert (rev (cells ++ [x]) = x :: rev cells) as E by apply rev_unit.
  destruct (cells ++ [x]) as [|c fields] eqn:Ec.
  - destruct cells; discriminate Ec.
  - destruct tail as [|c0 t]; unfold end_record, after_cell; rewrite E; reflexivity.
Qed.

Lemma read_records recs : forall v vs,
  parse_csv_go AtStart [] [] (esc v +:+ more_cells vs +:+ more_records recs)
  = (py_str v :: map py_str vs)
    :: map (fun rec => py_str rec.1 :: map py_str rec.2) recs.
Proof.
  induction recs as [|[v' vs'] recs IH]; intros v vs;
    rewrite read_cell by apply more_cells_led, more_records_led;
    rewrite read_record, end_record_text, rev_involutive.
  - reflexivity.
  - cbn [more_records].
    change (nl +:+ esc v' +:+ more_cells vs' +:+ more_records recs)
      with (String newline_char (esc v' +:+ more_cells vs' +:+ more_records recs)).
    cbv iota. change (Ascii.eqb newline_char comma_char) with false. cbv iota.
    rewrite IH. reflexivity.
Qed.

Lemma join_more_cells v vs :
  PyStr.join "," (map esc (v :: vs)) = esc v +:+ more_cells vs.
Proof.
  revert v. induction vs as [|v' vs IH]; intros v.
  - cbn [map more_cells]. change (PyStr.join "," [esc v]) with (esc v).
    induction (esc v) as [|c s IHs]; [reflexivity |].
    rewrite app_cons, <- IHs. reflexivity.
  - cbn [map more_cells].
    change (PyStr.join "," (esc v :: esc v' :: map esc vs))
      with (esc v +:+ "," +:+ PyStr.join "," (map esc (v' :: vs))).
    rewrite IH. reflexivity.
Qed.

Lemma join_more_records (first : string) recs :
  PyStr.join nl
    (first :: map (fun rec => PyStr.join "," (map esc (rec.1 :: rec.2))) recs)
  = first +:+ more_records recs.
Proof.
  revert first. induction recs as [|[v vs] recs IH]; intros first.
  - cbn [map more_records]. change (PyStr.join nl [first]) with first.
    induction first as [|c s IHs]; [reflexivity |].
    rewrite app_cons, <- IHs. reflexivity.
  - cbn [map more_records].
    change (PyStr.join nl (first :: ?x :: ?l))
      with (first +:+ nl +:+ PyStr.join nl (x :: l)).
    rewrite IH. cbn [fst snd].
    change (esc v :: map esc vs) with (map esc (v :: vs)).
    rewrite join_more_cells, !append_assoc. reflexivity.
Qed.

Lemma csv_text_parses (h0 : string) (hs : list string)
    (rows : list (gmap string value)) :
  parse_csv
    (PyStr.join nl
       (PyStr.join "," (map (fun h => esc (VStr h)) (h0 :: hs))
        :: map (fun row => PyStr.join "," (map (fun h => esc (get_cell row h)) (h0 :: hs)))
               rows))
  = (h0 :: hs) :: map (fun r => map (cell_text r) (h0 :: hs)) rows.
Proof.
  unfold parse_csv.
  assert (PyStr.join "," (map (fun h => esc (VStr h)) (h0 :: hs))
          = esc (VStr h0) +:+ more_cells (map VStr hs)) as H1.
  { rewrite <- join_more_cells. cbn [map]. rewrite map_map. reflexivity. }
  assert (map (fun row => PyStr.join "," (map (fun h => esc (get_cell row h)) (h0 :: hs)))
              rows
          = map (fun rec => PyStr.join "," (map esc (rec.1 :: rec.2)))
                (map (fun row => (get_cell row h0, map (get_cell row) hs)) rows)) as H2.
  { rewrite map_map. apply map_ext. intros row. cbn [fst snd map].
    rewrite map_map. reflexivity. }
  rewrite H1, H2, join_more_records, append_assoc, read_records.
  f_equal.
  - cbn [py_str]. f_equal. rewrite map_map. apply List.map_id.
  - rewrite map_map. apply map_ext. intros r. cbn [fst snd map].
    rewrite map_map. reflexivity.
Qed.

(** X14: the CSV text parses back: reading the output of [format_csv] with
    a CSV reader (cells end at commas, records at newlines, a quoted cell
    runs to its closing quote with doubled quotes inside standing for one)
    gives the header names, then for each row, in order, the string forms
    of its cells under those headers, whatever commas, quotes or newlines
    the values hold. *)
Theorem format_csv_parses_back (rows : list (gmap string value))
    (include_score : bool) :
  parse_csv (format_csv rows include_score)
  = headers_for include_score
    :: map (fun r => map (cell_text r) (headers_for include_score)) rows.
Proof.
  unfold format_csv. cbv zeta.
  assert (PyStr.join "," (headers_for include_score)
          = PyStr.join "," (map (fun h => esc (VStr h)) (headers_for include_score)))
    as -> by (destruct include_score; reflexivity).
  destruct include_score; apply csv_text_parses.
Qed.

Example format_csv_parses_back_quoted :
  parse_csv (format_csv [{["key" := VStr "a,b"; "name" := VStr said_hi;
                           "family" := VStr ("x" +:+ nl +:+ "y")]}] false)
  = [FIELDS_ORDER; ["a,b"; said_hi; "x" +:+ nl +:+ "y"; ""; ""; ""; ""; ""]].
Proof. vm_compute. reflexivity. Qed.
